(** * font-flow: a shallow embedding of [script.js]

    The page script keeps three module-level variables ([fonts],
    [currentFilter], [favorites]), a handful of DOM elements looked up once
    at start-up, and the browser's [localStorage] and timer table.  The
    embedding threads all of them through explicit records.

    JavaScript strings are sequences of 16-bit code units; they are modelled
    as [list N], so that [===], [Set] membership, [String.prototype.trim]
    and the escaping done by [JSON.stringify] are the ones of the language.
    Times are milliseconds on a logical clock (a [nat]). *)

From Stdlib Require Import NArith Ascii String Lia.
From stdpp Require Import base list strings gmap pretty.

Open Scope N_scope.

(* ================================================================== *)
(** * Part I: definitions *)
(* ================================================================== *)

(** ** JavaScript strings *)

Abbreviation jsstring := (list N).

(** The code units of an ASCII literal of the source. *)
Definition js (s : string) : jsstring :=
  map N_of_ascii (list_ascii_of_string s).

(** WhiteSpace and LineTerminator code points of ECMAScript, the ones
    [String.prototype.trim] strips. *)
Definition is_js_space (c : N) : bool :=
  (c =? 0x09) || (c =? 0x0A) || (c =? 0x0B) || (c =? 0x0C) || (c =? 0x0D)
  || (c =? 0x20) || (c =? 0xA0) || (c =? 0x1680)
  || ((0x2000 <=? c) && (c <=? 0x200A))
  || (c =? 0x2028) || (c =? 0x2029) || (c =? 0x202F) || (c =? 0x205F)
  || (c =? 0x3000) || (c =? 0xFEFF).

Fixpoint trimStart (s : jsstring) : jsstring :=
  match s with
  | c :: r => if is_js_space c then trimStart r else s
  | [] => []
  end.

Definition trimEnd (s : jsstring) : jsstring := rev (trimStart (rev s)).

Definition trim (s : jsstring) : jsstring := trimEnd (trimStart s).

(** [String(n)] for a length: its decimal digits. *)
Definition Number_toString (n : nat) : jsstring := js (pretty n).

(** ** Exceptions *)

Inductive Error : Type :=
| SyntaxError
| TypeError
| DOMException.

(** The outcome of a call.  [Untyped] marks a call that succeeds in
    JavaScript with a value for which the data model has no place (a
    favorite that is not a string); the embedding stops there instead of
    guessing. *)
Inductive result (A : Type) : Type :=
| Ok (a : A)
| Throw (e : Error)
| Untyped.

Arguments Ok {A} a.
Arguments Throw {A} e.
Arguments Untyped {A}.

#[global] Instance result_ret : MRet result := λ A a, Ok a.

#[global] Instance result_bind : MBind result := λ A B k m,
  match m with
  | Ok a => k a
  | Throw e => Throw e
  | Untyped => Untyped
  end.

(** ** The built-in [Set], restricted to strings

    A JavaScript [Set] iterates in insertion order, and that order is what
    [[...favorites]] serialises, so the set is a list without duplicates
    rather than an unordered collection. *)

Definition Set_has (x : jsstring) (S : list jsstring) : bool :=
  bool_decide (x ∈ S).

Definition Set_add (x : jsstring) (S : list jsstring) : list jsstring :=
  if Set_has x S then S else S ++ [x].

Definition Set_delete (x : jsstring) (S : list jsstring) : list jsstring :=
  filter (λ y, y ≠ x) S.

(** [new Set(iterable)] on an array of strings: members are added in turn. *)
Definition Set_of_list (l : list jsstring) : list jsstring :=
  fold_left (λ S x, Set_add x S) l [].

(** Same membership, whatever the insertion order. *)
Definition same_members (S T : list jsstring) : Prop :=
  ∀ x, x ∈ S ↔ x ∈ T.

(** ** JSON

    [JSON.stringify] is only ever applied to an array of strings
    ([[...favorites]]); [JSON.parse] is applied to whatever text the storage
    holds, so the parser covers the whole grammar.  Number literals are kept
    as their text: nothing below depends on their value. *)

#[local] Set Warnings "-register-all".

Inductive json : Type :=
| JNull
| JBool (b : bool)
| JNum (literal : jsstring)
| JStr (s : jsstring)
| JArr (elements : list json)
| JObj (members : list (jsstring * json)).

Definition hex_digit (d : N) : N :=
  if d <? 10 then 0x30 + d else 0x61 + (d - 10).

(** [\uXXXX] with lower-case digits, as [JSON.stringify] writes it. *)
Definition unicode_escape (c : N) : jsstring :=
  [0x5C; 0x75; hex_digit (c / 4096 mod 16); hex_digit (c / 256 mod 16);
   hex_digit (c / 16 mod 16); hex_digit (c mod 16)].

Definition is_high_surrogate (c : N) : bool := (0xD800 <=? c) && (c <=? 0xDBFF).
Definition is_low_surrogate (c : N) : bool := (0xDC00 <=? c) && (c <=? 0xDFFF).

(** One code unit that is not half of a well-formed surrogate pair. *)
Definition quote_unit (c : N) : jsstring :=
  if c =? 0x08 then js "\b"
  else if c =? 0x09 then js "\t"
  else if c =? 0x0A then js "\n"
  else if c =? 0x0C then js "\f"
  else if c =? 0x0D then js "\r"
  else if c =? 0x22 then [0x5C; 0x22]
  else if c =? 0x5C then [0x5C; 0x5C]
  else if (c <? 0x20) || is_high_surrogate c || is_low_surrogate c
       then unicode_escape c
  else [c].

(** The characters of a JSON string literal, between the quotes. *)
Fixpoint quote_chars (s : jsstring) : jsstring :=
  match s with
  | [] => []
  | c :: r =>
      match r with
      | d :: r' =>
          if is_high_surrogate c && is_low_surrogate d
          then c :: d :: quote_chars r'
          else quote_unit c ++ quote_chars r
      | [] => quote_unit c
      end
  end.

Definition QuoteJSONString (s : jsstring) : jsstring :=
  0x22 :: quote_chars s ++ [0x22].

Fixpoint join_comma (l : list jsstring) : jsstring :=
  match l with
  | [] => []
  | [x] => x
  | x :: r => x ++ 0x2C :: join_comma r
  end.

(** [JSON.stringify(a)] for an array [a] of strings. *)
Definition JSON_stringify (a : list jsstring) : jsstring :=
  0x5B :: join_comma (map QuoteJSONString a) ++ [0x5D].

Definition is_json_ws (c : N) : bool :=
  (c =? 0x20) || (c =? 0x09) || (c =? 0x0A) || (c =? 0x0D).

Fixpoint skip_ws (s : jsstring) : jsstring :=
  match s with
  | c :: r => if is_json_ws c then skip_ws r else s
  | [] => []
  end.

Definition is_digit (c : N) : bool := (0x30 <=? c) && (c <=? 0x39).

Definition hex_value (c : N) : option N :=
  if is_digit c then Some (c - 0x30)
  else if (0x61 <=? c) && (c <=? 0x66) then Some (c - 0x61 + 10)
  else if (0x41 <=? c) && (c <=? 0x46) then Some (c - 0x41 + 10)
  else None.

Definition hex4 (a b c d : N) : option N :=
  a ← hex_value a; b ← hex_value b; c ← hex_value c; d ← hex_value d;
  Some (((a * 16 + b) * 16 + c) * 16 + d).

(** The rest of a string literal, after its opening quote. *)
Fixpoint parse_chars (s : jsstring) : option (jsstring * jsstring) :=
  match s with
  | [] => None
  | c :: r =>
      if c =? 0x22 then Some ([], r)
      else if c =? 0x5C then
        match r with
        | e :: r' =>
            if e =? 0x75 then
              match r' with
              | h1 :: h2 :: h3 :: h4 :: r'' =>
                  u ← hex4 h1 h2 h3 h4;
                  '(t, rest) ← parse_chars r'';
                  Some (u :: t, rest)
              | _ => None
              end
            else
              u ← (if e =? 0x22 then Some 0x22
                   else if e =? 0x5C then Some 0x5C
                   else if e =? 0x2F then Some 0x2F
                   else if e =? 0x62 then Some 0x08
                   else if e =? 0x66 then Some 0x0C
                   else if e =? 0x6E then Some 0x0A
                   else if e =? 0x72 then Some 0x0D
                   else if e =? 0x74 then Some 0x09
                   else None);
              '(t, rest) ← parse_chars r';
              Some (u :: t, rest)
        | [] => None
        end
      else if c <? 0x20 then None
      else '(t, rest) ← parse_chars r; Some (c :: t, rest)
  end.

Fixpoint take_digits (s : jsstring) : jsstring * jsstring :=
  match s with
  | c :: r =>
      if is_digit c then let '(ds, rest) := take_digits r in (c :: ds, rest)
      else ([], s)
  | [] => ([], [])
  end.

(** A number literal: an optional minus sign, then either a single zero or
    a non-zero digit followed by digits, then an optional fraction (a dot
    and at least one digit) and an optional exponent (e or E, an optional
    sign, at least one digit). *)
Definition parse_number (s : jsstring) : option (jsstring * jsstring) :=
  let '(sign, s1) :=
    match s with c :: r => if c =? 0x2D then ([c], r) else ([], s) | [] => ([], s) end in
  '(int, s2) ←
    match s1 with
    | c :: r =>
        if c =? 0x30 then Some ([c], r)
        else if is_digit c then Some (take_digits s1)
        else None
    | [] => None
    end;
  '(frac, s3) ←
    match s2 with
    | c :: r =>
        if c =? 0x2E then
          match take_digits r with
          | ([], _) => None
          | (ds, rest) => Some (c :: ds, rest)
          end
        else Some ([], s2)
    | [] => Some ([], s2)
    end;
  '(exp, s4) ←
    match s3 with
    | c :: r =>
        if (c =? 0x65) || (c =? 0x45) then
          let '(sg, r1) :=
            match r with
            | d :: r' => if (d =? 0x2B) || (d =? 0x2D) then ([d], r') else ([], r)
            | [] => ([], r)
            end in
          match take_digits r1 with
          | ([], _) => None
          | (ds, rest) => Some (c :: sg ++ ds, rest)
          end
        else Some ([], s3)
    | [] => Some ([], s3)
    end;
  Some (sign ++ int ++ frac ++ exp, s4).

Fixpoint strip_prefix (p s : jsstring) : option jsstring :=
  match p, s with
  | [], _ => Some s
  | a :: p', b :: s' => if a =? b then strip_prefix p' s' else None
  | _ :: _, [] => None
  end.

Fixpoint parse_value (fuel : nat) (s : jsstring) : option (json * jsstring) :=
  match fuel with
  | O => None
  | S fuel =>
      match skip_ws s with
      | [] => None
      | c :: r =>
          if c =? 0x22 then
            '(t, rest) ← parse_chars r; Some (JStr t, rest)
          else if c =? 0x5B then
            match skip_ws r with
            | d :: r' =>
                if d =? 0x5D then Some (JArr [], r')
                else '(vs, rest) ← parse_elements fuel r; Some (JArr vs, rest)
            | [] => None
            end
          else if c =? 0x7B then
            match skip_ws r with
            | d :: r' =>
                if d =? 0x7D then Some (JObj [], r')
                else '(ms, rest) ← parse_members fuel r; Some (JObj ms, rest)
            | [] => None
            end
          else if c =? 0x6E then
            rest ← strip_prefix (js "null") (c :: r); Some (JNull, rest)
          else if c =? 0x74 then
            rest ← strip_prefix (js "true") (c :: r); Some (JBool true, rest)
          else if c =? 0x66 then
            rest ← strip_prefix (js "false") (c :: r); Some (JBool false, rest)
          else
            '(lit, rest) ← parse_number (c :: r); Some (JNum lit, rest)
      end
  end
with parse_elements (fuel : nat) (s : jsstring) : option (list json * jsstring) :=
  match fuel with
  | O => None
  | S fuel =>
      '(v, r) ← parse_value fuel s;
      match skip_ws r with
      | c :: r' =>
          if c =? 0x2C then
            '(vs, rest) ← parse_elements fuel r'; Some (v :: vs, rest)
          else if c =? 0x5D then Some ([v], r')
          else None
      | [] => None
      end
  end
with parse_members (fuel : nat) (s : jsstring)
  : option (list (jsstring * json) * jsstring) :=
  match fuel with
  | O => None
  | S fuel =>
      match skip_ws s with
      | q :: r0 =>
          if q =? 0x22 then
            '(k, r1) ← parse_chars r0;
            match skip_ws r1 with
            | colon :: r2 =>
                if colon =? 0x3A then
                  '(v, r) ← parse_value fuel r2;
                  match skip_ws r with
                  | c :: r' =>
                      if c =? 0x2C then
                        '(ms, rest) ← parse_members fuel r';
                        Some ((k, v) :: ms, rest)
                      else if c =? 0x7D then Some ([(k, v)], r')
                      else None
                  | [] => None
                  end
                else None
            | [] => None
            end
          else None
      | [] => None
      end
  end.

(** [JSON.parse(text)]: one value, surrounded by optional white space.
    The parser uses up at most two units of fuel for each code unit it
    reads, so twice the length of the text is fuel enough. *)
Definition JSON_parse (text : jsstring) : result json :=
  match parse_value (2 * length text + 2) text with
  | Some (v, rest) =>
      match skip_ws rest with
      | [] => Ok v
      | _ :: _ => Throw SyntaxError
      end
  | None => Throw SyntaxError
  end.

(** Whenever a parser succeeds with fuel [n], it has read at least one code
    unit, and succeeds with the same result on twice as much fuel as it has
    read code units. *)
Definition fuel_suffices {A : Type}
    (parse : nat → jsstring → option (A * jsstring)) (n : nat) : Prop :=
  ∀ s v rest, parse n s = Some (v, rest) →
    (length rest < length s)%nat ∧
    ∀ f, (2 * (length s - length rest) ≤ f)%nat → parse f s = Some (v, rest).

(** The members [new Set(s)] draws from a string [s]: its code points, a
    well-formed surrogate pair counting as one. *)
Fixpoint code_points (s : jsstring) : list jsstring :=
  match s with
  | [] => []
  | c :: r =>
      match r with
      | d :: r' =>
          if is_high_surrogate c && is_low_surrogate d
          then [c; d] :: code_points r'
          else [c] :: code_points r
      | [] => [[c]]
      end
  end.

Fixpoint strings_of (l : list json) : option (list jsstring) :=
  match l with
  | [] => Some []
  | JStr s :: r => t ← strings_of r; Some (s :: t)
  | _ :: _ => None
  end.

(** [new Set(v)] for a parsed value [v]: [null] gives the empty set, a string
    or an array is iterated, anything else is not iterable.  An array with a
    member that is not a string gives a set outside the data model. *)
Definition new_Set (v : json) : result (list jsstring) :=
  match v with
  | JNull => Ok []
  | JStr s => Ok (Set_of_list (code_points s))
  | JArr l =>
      match strings_of l with
      | Some names => Ok (Set_of_list names)
      | None => Untyped
      end
  | JBool _ | JNum _ | JObj _ => Throw TypeError
  end.

(** ** [localStorage]

    The item map, and the sequence of [setItem] calls made so far. *)
Record Storage : Type := {
  items : gmap jsstring jsstring;
  writes : list (jsstring * jsstring)
}.

Definition getItem (key : jsstring) (s : Storage) : option jsstring :=
  items s !! key.

Definition setItem (key value : jsstring) (s : Storage) : Storage :=
  {| items := <[key := value]> (items s);
     writes := writes s ++ [(key, value)] |}.

(** ** The page state *)

Record Font : Type := {
  name : jsstring;
  category : jsstring;
  class : jsstring
}.

(** One card of the grid: the properties [renderFonts] assigns, and the
    descriptor its two click listeners close over.  [classList]s are token
    lists; the other properties are the assigned strings. *)
Record Card : Type := {
  card_classList : list jsstring;
  logoDiv_className : jsstring;
  logoDiv_textContent : jsstring;
  fontInfo_className : jsstring;
  fontInfo_innerHTML : jsstring;
  favoriteBtn_classList : list jsstring;
  favoriteBtn_innerHTML : jsstring;
  favoriteBtn_title : jsstring;
  copyIndicator_className : jsstring;
  copyIndicator_textContent : jsstring;
  card_font : Font
}.

(** [currentFilter] is [None] when a filter button carries no
    [data-filter] attribute ([btn.dataset.filter] is then [undefined]). *)
Record State : Type := {
  fonts : list Font;
  currentFilter : option jsstring;
  favorites : list jsstring;
  localStorage : Storage;
  input_value : jsstring;
  grid : list Card;
  statsCount_textContent : jsstring
}.

Definition set_fonts (v : list Font) (st : State) : State :=
  {| fonts := v; currentFilter := currentFilter st; favorites := favorites st;
     localStorage := localStorage st; input_value := input_value st;
     grid := grid st; statsCount_textContent := statsCount_textContent st |}.

Definition set_currentFilter (v : option jsstring) (st : State) : State :=
  {| fonts := fonts st; currentFilter := v; favorites := favorites st;
     localStorage := localStorage st; input_value := input_value st;
     grid := grid st; statsCount_textContent := statsCount_textContent st |}.

Definition set_favorites (v : list jsstring) (st : State) : State :=
  {| fonts := fonts st; currentFilter := currentFilter st; favorites := v;
     localStorage := localStorage st; input_value := input_value st;
     grid := grid st; statsCount_textContent := statsCount_textContent st |}.

Definition set_localStorage (v : Storage) (st : State) : State :=
  {| fonts := fonts st; currentFilter := currentFilter st;
     favorites := favorites st; localStorage := v;
     input_value := input_value st; grid := grid st;
     statsCount_textContent := statsCount_textContent st |}.

Definition set_input_value (v : jsstring) (st : State) : State :=
  {| fonts := fonts st; currentFilter := currentFilter st;
     favorites := favorites st; localStorage := localStorage st;
     input_value := v; grid := grid st;
     statsCount_textContent := statsCount_textContent st |}.

Definition set_grid (v : list Card) (st : State) : State :=
  {| fonts := fonts st; currentFilter := currentFilter st;
     favorites := favorites st; localStorage := localStorage st;
     input_value := input_value st; grid := v;
     statsCount_textContent := statsCount_textContent st |}.

Definition set_statsCount (v : jsstring) (st : State) : State :=
  {| fonts := fonts st; currentFilter := currentFilter st;
     favorites := favorites st; localStorage := localStorage st;
     input_value := input_value st; grid := grid st;
     statsCount_textContent := v |}.

(** The script's initial values: [fonts = []], [currentFilter = "all"],
    [favorites = new Set()], over a given storage and input text. *)
Definition initial (storage : Storage) (text : jsstring) : State :=
  {| fonts := []; currentFilter := Some (js "all"); favorites := [];
     localStorage := storage; input_value := text; grid := [];
     statsCount_textContent := [] |}.

(** [a || b] on strings: the empty string is the only falsy one. *)
Definition or_else (a b : jsstring) : jsstring :=
  match a with [] => b | _ :: _ => a end.

Definition truthy (a : jsstring) : bool :=
  match a with [] => false | _ :: _ => true end.

(** ** Favorites *)

Definition fontFavorites : jsstring := js "fontFavorites".

Definition loadFavorites (st : State) : result State :=
  match getItem fontFavorites (localStorage st) with
  | Some stored =>
      if truthy stored then
        v ← JSON_parse stored;
        S ← new_Set v;
        Ok (set_favorites S st)
      else Ok st
  | None => Ok st
  end.

Definition saveFavorites (st : State) : State :=
  set_localStorage
    (setItem fontFavorites (JSON_stringify (favorites st)) (localStorage st)) st.

(** ** Rendering *)

Definition star_filled : jsstring := [0x2605].
Definition star_empty : jsstring := [0x2606].

Definition dq : jsstring := [0x22].
Definition nl : jsstring := [0x0A].

(** The template literal assigned to [fontInfo.innerHTML]. *)
Definition fontInfo_template (font : Font) : jsstring :=
  nl ++ js "      <div class=" ++ dq ++ js "font-name" ++ dq ++ js ">"
     ++ name font ++ js "</div>"
  ++ nl ++ js "      <div class=" ++ dq ++ js "category" ++ dq ++ js ">"
     ++ category font ++ js "</div>"
  ++ nl ++ js "    ".

(** The body of the [forEach] callback, up to [grid.appendChild(card)]. *)
Definition make_card (favs : list jsstring) (currentText : jsstring)
    (font : Font) : Card :=
  {| card_classList := [js "logo-card"];
     logoDiv_className := js "logo " ++ class font;
     logoDiv_textContent := currentText;
     fontInfo_className := js "font-info";
     fontInfo_innerHTML := fontInfo_template font;
     favoriteBtn_classList :=
       if Set_has (name font) favs
       then [js "favorite-btn"; js "favorited"] else [js "favorite-btn"];
     favoriteBtn_innerHTML :=
       if Set_has (name font) favs then star_filled else star_empty;
     favoriteBtn_title :=
       if Set_has (name font) favs
       then js "Remove from favorites" else js "Add to favorites";
     copyIndicator_className := js "copy-indicator";
     copyIndicator_textContent := js "Copied!";
     card_font := font |}.

Definition appendChild (card : Card) (st : State) : State :=
  set_grid (grid st ++ [card]) st.

Definition filteredFonts (flt : jsstring) (st : State) : list Font :=
  if decide (flt = js "favorites")
  then filter (λ f, Set_has (name f) (favorites st) = true) (fonts st)
  else if decide (flt = js "all") then fonts st
       else filter (λ f, category f = flt) (fonts st).

Definition currentText (st : State) : jsstring :=
  or_else (trim (input_value st)) (js "ABC").

(** [renderFonts(filter = "all")]; [None] is a call without argument, or
    with [undefined]. *)
Definition renderFonts (filter_arg : option jsstring) (st : State) : State :=
  let flt := default (js "all") filter_arg in
  let st := set_grid [] st in
  let shown := filteredFonts flt st in
  let st := set_statsCount (Number_toString (length shown)) st in
  let text := currentText st in
  fold_left (λ st font, appendChild (make_card (favorites st) text font) st)
            shown st.

Definition toggleFavorite (fontName : jsstring) (st : State) : State :=
  let st :=
    if Set_has fontName (favorites st)
    then set_favorites (Set_delete fontName (favorites st)) st
    else set_favorites (Set_add fontName (favorites st)) st in
  let st := saveFavorites st in
  if decide (currentFilter st = Some (js "favorites"))
  then renderFonts (currentFilter st) st
  else st.

(** ** Listeners and start-up *)

Definition classList_add (token : jsstring) (l : list jsstring) : list jsstring :=
  if bool_decide (token ∈ l) then l else l ++ [token].

Definition classList_remove (token : jsstring) (l : list jsstring)
  : list jsstring :=
  filter (λ t, t ≠ token) l.

Definition classList_toggle (token : jsstring) (l : list jsstring)
  : list jsstring :=
  if bool_decide (token ∈ l) then classList_remove token l else l ++ [token].

(** What the favorite button's listener assigns to its own button after
    [toggleFavorite] has returned. *)
Definition refresh_favoriteBtn (favs : list jsstring) (card : Card) : Card :=
  {| card_classList := card_classList card;
     logoDiv_className := logoDiv_className card;
     logoDiv_textContent := logoDiv_textContent card;
     fontInfo_className := fontInfo_className card;
     fontInfo_innerHTML := fontInfo_innerHTML card;
     favoriteBtn_classList :=
       classList_toggle (js "favorited") (favoriteBtn_classList card);
     favoriteBtn_innerHTML :=
       if Set_has (name (card_font card)) favs then star_filled else star_empty;
     favoriteBtn_title :=
       if Set_has (name (card_font card)) favs
       then js "Remove from favorites" else js "Add to favorites";
     copyIndicator_className := copyIndicator_className card;
     copyIndicator_textContent := copyIndicator_textContent card;
     card_font := card_font card |}.

(** A click on the favorite button of the [i]-th card of the grid.  When
    [toggleFavorite] re-renders, the grid holds new cards and the listener's
    button, which it still updates, is no longer part of the page. *)
Definition favoriteBtn_click (i : nat) (st : State) : State :=
  match grid st !! i with
  | None => st
  | Some card =>
      let rerenders := bool_decide (currentFilter st = Some (js "favorites")) in
      let st := toggleFavorite (name (card_font card)) st in
      if rerenders then st
      else set_grid (<[i := refresh_favoriteBtn (favorites st) card]> (grid st)) st
  end.

(** A click on a filter button whose [data-filter] is [token]. *)
Definition filterBtn_click (token : option jsstring) (st : State) : State :=
  let st := set_currentFilter token st in
  renderFonts (currentFilter st) st.

Definition clearBtn_click (st : State) : State :=
  let st := set_input_value [] st in
  renderFonts (currentFilter st) st.

(** [loadFonts], given how [fetch] and [response.json()] settled: with an
    error, which the [catch] logs, or with the catalog. *)
Definition loadFonts (fetched : Error + list Font) (st : State) : State :=
  match fetched with
  | inr catalog => renderFonts None (set_fonts catalog st)
  | inl _ => st
  end.

(** The start-up callback: [loadFavorites(); loadFonts();]. *)
Definition startup (fetched : Error + list Font) (st : State) : result State :=
  st ← loadFavorites st;
  Ok (loadFonts fetched st).

(** ** The other copy of the script (src/unnamed/part_000)

    It has no favorites, takes the input value untrimmed and uses another
    placeholder. *)
Module Part000.

Record Card : Type := {
  card_classList : list jsstring;
  logoDiv_className : jsstring;
  logoDiv_textContent : jsstring;
  fontInfo_className : jsstring;
  fontInfo_innerHTML : jsstring;
  copyIndicator_className : jsstring;
  copyIndicator_textContent : jsstring;
  card_font : Font
}.

Record State : Type := {
  fonts : list Font;
  currentFilter : option jsstring;
  input_value : jsstring;
  grid : list Card;
  statsCount_textContent : jsstring
}.

Definition make_card (currentText : jsstring) (font : Font) : Card :=
  {| card_classList := [js "logo-card"];
     logoDiv_className := js "logo " ++ class font;
     logoDiv_textContent := currentText;
     fontInfo_className := js "font-info";
     fontInfo_innerHTML := fontInfo_template font;
     copyIndicator_className := js "copy-indicator";
     copyIndicator_textContent := js "Copied!";
     card_font := font |}.

Definition filteredFonts (flt : jsstring) (st : State) : list Font :=
  if decide (flt = js "all") then fonts st
  else filter (λ f, category f = flt) (fonts st).

Definition currentText (st : State) : jsstring :=
  or_else (input_value st) (js "I<ARIM").

Definition renderFonts (filter_arg : option jsstring) (st : State) : State :=
  let flt := default (js "all") filter_arg in
  let shown := filteredFonts flt st in
  let text := currentText st in
  {| fonts := fonts st; currentFilter := currentFilter st;
     input_value := input_value st;
     grid := fold_left (λ g font, g ++ [make_card text font]) shown [];
     statsCount_textContent := Number_toString (length shown) |}.

End Part000.

Close Scope N_scope.

(** ** Timers

    The browser's timer table.  A timer runs once, when the clock has
    reached its due time; among the timers that are due, the one due first
    runs first, and of two due at the same instant the one created first. *)
Section Timers.
Context {C : Type}.

Record Timer : Type := {
  timer_id : nat;
  timer_due : nat;
  timer_callback : C
}.

Record TimerTable : Type := {
  next_id : nat;
  pending : list Timer
}.

Definition no_timers : TimerTable := {| next_id := 1; pending := [] |}.

Definition setTimeout (callback : C) (delay now : nat) (T : TimerTable)
  : nat * TimerTable :=
  (next_id T,
   {| next_id := S (next_id T);
      pending := pending T
        ++ [{| timer_id := next_id T; timer_due := now + delay;
               timer_callback := callback |}] |}).

(** [clearTimeout(handle)]; [None] is [undefined], and a handle that names
    no pending timer changes nothing. *)
Definition clearTimeout (handle : option nat) (T : TimerTable) : TimerTable :=
  match handle with
  | None => T
  | Some id =>
      {| next_id := next_id T;
         pending := filter (λ tm, timer_id tm ≠ id) (pending T) |}
  end.

Fixpoint earliest (l : list Timer) : option Timer :=
  match l with
  | [] => None
  | tm :: r =>
      match earliest r with
      | Some tm' => if timer_due tm' <? timer_due tm then Some tm' else Some tm
      | None => Some tm
      end
  end.

(** The timer to run next when the clock has reached [t], if any. *)
Definition next_due (t : nat) (T : TimerTable) : option Timer :=
  earliest (filter (λ tm, timer_due tm ≤ t) (pending T)).

Definition take (tm : Timer) (T : TimerTable) : TimerTable :=
  clearTimeout (Some (timer_id tm)) T.

(** The event loop over a world [W] that holds a timer table and a clock:
    run, in order, the timers due by time [t].  No callback of this
    script sets a timer, so one round per pending timer is enough. *)
Context {W : Type}.
Variable timers : W → TimerTable.
Variable set_timers : TimerTable → W → W.
Variable clock : W → nat.
Variable set_clock : nat → W → W.
Variable fire : C → W → W.

Fixpoint run_timers (rounds : nat) (t : nat) (w : W) : W :=
  match rounds with
  | O => w
  | S rounds =>
      match next_due t (timers w) with
      | None => w
      | Some tm =>
          let w := set_timers (take tm (timers w)) w in
          let w := set_clock (clock w `max` timer_due tm) w in
          run_timers rounds t (fire (timer_callback tm) w)
      end
  end.

Definition advance (t : nat) (w : W) : W :=
  let w := run_timers (length (pending (timers w))) t w in
  set_clock (clock w `max` t) w.
End Timers.

Arguments Timer : clear implicits.
Arguments TimerTable : clear implicits.

(** ** [debounce] *)
Section Debounce.
Context {Args S : Type}.

(** The wrapped action, acting on some state [S]. *)
Variable func : Args → S → S.
Variable wait : nat.

(** The closure [later], which captures the arguments of its call. *)
Inductive Later : Type := later (args : Args).

(** The variable [timeout] of one [debounce(func, wait)] call, the timer
    table, the clock, and the state [func] acts on.  [invocations] is not a
    variable of the script: it records each run of [func], with the time and
    the arguments, for the statements below. *)
Record Debounced : Type := {
  timeout : option nat;
  d_timers : TimerTable Later;
  d_now : nat;
  d_target : S;
  invocations : list (nat * Args)
}.

Definition d_set_timers (T : TimerTable Later) (w : Debounced) : Debounced :=
  {| timeout := timeout w; d_timers := T; d_now := d_now w;
     d_target := d_target w; invocations := invocations w |}.

Definition d_set_now (t : nat) (w : Debounced) : Debounced :=
  {| timeout := timeout w; d_timers := d_timers w; d_now := t;
     d_target := d_target w; invocations := invocations w |}.

Definition run_later (l : Later) (w : Debounced) : Debounced :=
  let 'later args := l in
  let w := d_set_timers (clearTimeout (timeout w) (d_timers w)) w in
  {| timeout := timeout w; d_timers := d_timers w; d_now := d_now w;
     d_target := func args (d_target w);
     invocations := invocations w ++ [(d_now w, args)] |}.

Definition executedFunction (args : Args) (w : Debounced) : Debounced :=
  let w := d_set_timers (clearTimeout (timeout w) (d_timers w)) w in
  let '(id, T) := setTimeout (later args) wait (d_now w) (d_timers w) in
  {| timeout := Some id; d_timers := T; d_now := d_now w;
     d_target := d_target w; invocations := invocations w |}.

(** [debounce(func, wait)] itself: [timeout] starts out undefined. *)
Definition debounce (now : nat) (target : S) : Debounced :=
  {| timeout := None; d_timers := no_timers; d_now := now;
     d_target := target; invocations := [] |}.

Definition d_advance : nat → Debounced → Debounced :=
  advance d_timers d_set_timers d_now d_set_now run_later.

(** A sequence of calls [(t, args)]: the clock runs to [t], then the
    debounced function is called with [args]. *)
Definition call_at (w : Debounced) (c : nat * Args) : Debounced :=
  executedFunction (snd c) (d_advance (fst c) w).

Definition calls (cs : list (nat * Args)) (w : Debounced) : Debounced :=
  fold_left call_at cs w.

(** One invocation is scheduled, the one of the call made at time [t] with
    arguments [args], and [func] has not run since [w0]. *)
Definition armed (t : nat) (args : Args) (w0 w : Debounced) : Prop :=
  ∃ id, timeout w = Some id ∧
        pending (d_timers w)
        = [{| timer_id := id; timer_due := t + wait;
              timer_callback := later args |}] ∧
        d_now w = t ∧ d_target w = d_target w0 ∧
        invocations w = invocations w0.

(** Consecutive calls are in order and less than [wait] apart. *)
Fixpoint burst (t : nat) (cs : list (nat * Args)) : Prop :=
  match cs with
  | [] => True
  | (t', _) :: r => t ≤ t' ∧ t' < t + wait ∧ burst t' r
  end.
End Debounce.

Arguments Later : clear implicits.
Arguments Debounced : clear implicits.

(** ** The text input *)

(** The listener of the text input:
    [debounce(function () { renderFonts(currentFilter); }, 300)].  The
    function ignores the event it is called with. *)
Definition updateLogos (event : unit) (st : State) : State :=
  renderFonts (currentFilter st) st.

Definition updateLogos_wait : nat := 300.

Definition debouncedUpdateLogos (event : unit) (w : Debounced unit State)
  : Debounced unit State :=
  executedFunction updateLogos_wait event w.

(** ** The toast *)

(** The arrow function [showToast] hands to [setTimeout]. *)
Inductive ToastCallback : Type := hide_toast.

Record Toast : Type := {
  toast_classList : list jsstring;
  toast_timers : TimerTable ToastCallback;
  toast_now : nat
}.

Definition toast_set_timers (T : TimerTable ToastCallback) (w : Toast) : Toast :=
  {| toast_classList := toast_classList w; toast_timers := T;
     toast_now := toast_now w |}.

Definition toast_set_now (t : nat) (w : Toast) : Toast :=
  {| toast_classList := toast_classList w; toast_timers := toast_timers w;
     toast_now := t |}.

Definition run_toast_callback (c : ToastCallback) (w : Toast) : Toast :=
  {| toast_classList := classList_remove (js "show") (toast_classList w);
     toast_timers := toast_timers w; toast_now := toast_now w |}.

(** The delay [showToast] passes to [setTimeout], in milliseconds. *)
Definition toast_delay : nat := 3000.

Definition showToast (w : Toast) : Toast :=
  let w := {| toast_classList := classList_add (js "show") (toast_classList w);
              toast_timers := toast_timers w; toast_now := toast_now w |} in
  let '(_, T) :=
    setTimeout hide_toast toast_delay (toast_now w) (toast_timers w) in
  toast_set_timers T w.

Definition toast_advance : nat → Toast → Toast :=
  advance toast_timers toast_set_timers toast_now toast_set_now
          run_toast_callback.

Definition showToast_at (t : nat) (w : Toast) : Toast :=
  showToast (toast_advance t w).

Definition toast_visible (w : Toast) : bool :=
  bool_decide (js "show" ∈ toast_classList w).

(** A page on which the toast is hidden and no timer is pending. *)
Definition quiet_toast (classes : list jsstring) (now : nat) : Toast :=
  {| toast_classList := classList_remove (js "show") classes;
     toast_timers := no_timers; toast_now := now |}.

(** ** The clipboard *)

Record TextArea : Type := {
  value : jsstring;
  style_position : jsstring;
  style_left : jsstring;
  style_top : jsstring
}.

(** A child of [document.body]: some element of the page, or a text area
    made by [copyToClipboard].  Nodes are told apart by their identity. *)
Inductive Node : Type :=
| page_element (id : nat)
| textarea_element (id : nat) (ta : TextArea).

Definition node_id (n : Node) : nat :=
  match n with
  | page_element id => id
  | textarea_element id _ => id
  end.

Inductive ConsoleEntry : Type :=
| console_warn (message : jsstring) (err : Error)
| console_error (message : jsstring) (err : Error).

Record Document : Type := {
  body : list Node;
  fresh_node : nat;
  activeElement : option nat;
  selected : option nat;
  console : list ConsoleEntry
}.

(** What the browser does with the calls [copyToClipboard] makes:
    whether [navigator.clipboard] and [window.isSecureContext] are truthy,
    how the promise of [writeText] settles ([None]: it resolves), and whether
    [document.execCommand] returns a boolean or throws.  The page has a
    body, so creating, appending, focusing, selecting and removing the text
    area succeed. *)
Record Browser : Type := {
  navigator_clipboard : bool;
  isSecureContext : bool;
  writeText : jsstring → option Error;
  execCommand : jsstring → Document → Error + bool
}.

Definition log (e : ConsoleEntry) (doc : Document) : Document :=
  {| body := body doc; fresh_node := fresh_node doc;
     activeElement := activeElement doc; selected := selected doc;
     console := console doc ++ [e] |}.

Definition body_appendChild (n : Node) (doc : Document) : Document :=
  {| body := body doc ++ [n]; fresh_node := fresh_node doc;
     activeElement := activeElement doc; selected := selected doc;
     console := console doc |}.

Definition body_removeChild (n : Node) (doc : Document) : Document :=
  {| body := filter (λ m, node_id m ≠ node_id n) (body doc);
     fresh_node := fresh_node doc;
     activeElement := activeElement doc; selected := selected doc;
     console := console doc |}.

(** Lines 27 to 34: the text area is created, filled, styled, appended,
    focused and selected. *)
Definition fallback_setup (text : jsstring) (doc : Document) : Node * Document :=
  let id := fresh_node doc in
  let textArea :=
    textarea_element id
      {| value := text; style_position := js "fixed";
         style_left := js "-999999px"; style_top := js "-999999px" |} in
  let doc := {| body := body doc; fresh_node := S id;
                activeElement := activeElement doc; selected := selected doc;
                console := console doc |} in
  let doc := body_appendChild textArea doc in
  let doc := {| body := body doc; fresh_node := fresh_node doc;
                activeElement := Some id; selected := Some id;
                console := console doc |} in
  (textArea, doc).

(** Lines 35 to 43: the [try]/[catch] around [document.execCommand]. *)
Definition fallback_copy (env : Browser) (textArea : Node) (doc : Document)
  : result bool * Document :=
  match execCommand env (js "copy") doc with
  | inr successful => (Ok successful, body_removeChild textArea doc)
  | inl err =>
      let doc := log (console_error (js "Fallback copy method failed") err) doc in
      (Ok false, body_removeChild textArea doc)
  end.

(** The outcome is the value the returned promise settles with: [Ok b] when
    it resolves with [b], [Throw e] when it rejects. *)
Definition copyToClipboard (env : Browser) (text : jsstring) (doc : Document)
  : result bool * Document :=
  let '(returned, doc) :=
    if navigator_clipboard env && isSecureContext env then
      match writeText env text with
      | None => (Some true, doc)
      | Some err =>
          (None,
           log (console_warn
                  (js "Clipboard API failed, falling back to execCommand") err)
               doc)
      end
    else (None, doc) in
  match returned with
  | Some b => (Ok b, doc)
  | None =>
      let '(textArea, doc) := fallback_setup text doc in
      fallback_copy env textArea doc
  end.

(** Every child of the body was created before [fresh_node]. *)
Definition fresh_ids (doc : Document) : Prop :=
  Forall (λ n, node_id n < fresh_node doc) (body doc).

(** ** Specification-side definitions *)

(** The predicate of a filter, as the specification words it: membership of
    the name in the favorite set for ["favorites"], every entry for
    ["all"], the entries of that category otherwise. *)
Definition satisfies (flt : jsstring) (favs : list jsstring) (x : Font) : bool :=
  if decide (flt = js "favorites") then bool_decide (name x ∈ favs)
  else if decide (flt = js "all") then true
  else bool_decide (category x = flt).

Fixpoint count_satisfying (p : Font → bool) (catalog : list Font) : nat :=
  match catalog with
  | [] => 0
  | x :: r => (if p x then 1 else 0) + count_satisfying p r
  end.

Definition whitespace_only (s : jsstring) : bool := forallb is_js_space s.

(** The modern path is taken and succeeds. *)
Definition clipboard_succeeds (env : Browser) (text : jsstring) : bool :=
  navigator_clipboard env && isSecureContext env
  && bool_decide (writeText env text = None).

(** The text area of the legacy path. *)
Definition offscreen_textarea (id : nat) (text : jsstring) : Node :=
  textarea_element id
    {| value := text; style_position := js "fixed";
       style_left := js "-999999px"; style_top := js "-999999px" |}.

(** ** Sample data

    The catalog of the specification's scenarios and a page state over it;
    a browser without the Clipboard API whose copy command throws, and a
    page of two elements. *)

Definition neon : Font :=
  {| name := js "Neon"; category := js "display"; class := js "f-neon" |}.

Definition retro : Font :=
  {| name := js "Retro"; category := js "serif"; class := js "f-retro" |}.

Definition sample_state : State :=
  {| fonts := [retro; neon]; currentFilter := Some (js "all");
     favorites := [js "Neon"];
     localStorage := {| items := ∅; writes := [] |};
     input_value := js " Ab "; grid := [];
     statsCount_textContent := [] |}.

Definition old_browser : Browser :=
  {| navigator_clipboard := false; isSecureContext := false;
     writeText := λ _, None;
     execCommand := λ _ _, inl DOMException |}.

Definition sample_document : Document :=
  {| body := [page_element 0; page_element 1]; fresh_node := 2;
     activeElement := None; selected := None; console := [] |}.

(* ================================================================== *)
(** * Part I, continued: the rest of the script *)
(* ================================================================== *)

(** ** The filter buttons

    One button of [filterBtns]: its [data-filter] attribute and its class
    list. *)
Record FilterBtn : Type := {
  dataset_filter : option jsstring;
  filterBtn_classList : list jsstring
}.

Definition filterBtn_remove_active (b : FilterBtn) : FilterBtn :=
  {| dataset_filter := dataset_filter b;
     filterBtn_classList := classList_remove (js "active") (filterBtn_classList b) |}.

Definition filterBtn_add_active (b : FilterBtn) : FilterBtn :=
  {| dataset_filter := dataset_filter b;
     filterBtn_classList := classList_add (js "active") (filterBtn_classList b) |}.

(** The listener of the [k]-th filter button: every button loses ["active"],
    the clicked one gets it, [currentFilter] becomes its token and the grid
    is rendered. *)
Definition filterBtns_click (k : nat) (btns : list FilterBtn) (st : State)
  : list FilterBtn * State :=
  match btns !! k with
  | None => (btns, st)
  | Some btn =>
      (alter filterBtn_add_active k (map filterBtn_remove_active btns),
       filterBtn_click (dataset_filter btn) st)
  end.

Definition is_active (b : FilterBtn) : Prop :=
  js "active" ∈ filterBtn_classList b.

(** ** The events of the page

    What can happen to the page state once the catalog is there: the user
    edits the text (the browser updates [input.value]; the listener only arms
    the debounce timer), the debounced action runs, and the three kinds of
    click. *)
Inductive Event : Type :=
| input_edited (v : jsstring)
| updateLogos_runs
| clearBtn_clicked
| filterBtn_clicked (token : option jsstring)
| favoriteBtn_clicked (i : nat).

Definition handle (st : State) (e : Event) : State :=
  match e with
  | input_edited v => set_input_value v st
  | updateLogos_runs => updateLogos () st
  | clearBtn_clicked => clearBtn_click st
  | filterBtn_clicked token => filterBtn_click token st
  | favoriteBtn_clicked i => favoriteBtn_click i st
  end.

Definition handle_all (events : list Event) (st : State) : State :=
  fold_left handle events st.

(** The grid and the count are those of a render of the present catalog,
    filter and favorite set, with some sample text. *)
Definition in_sync (st : State) : Prop :=
  ∃ text,
    grid st = map (make_card (favorites st) text)
                  (filteredFonts (default (js "all") (currentFilter st)) st) ∧
    statsCount_textContent st
    = Number_toString
        (length (filteredFonts (default (js "all") (currentFilter st)) st)).

(** The storage holds the serialisation of the favorite set in memory. *)
Definition persisted (st : State) : Prop :=
  getItem fontFavorites (localStorage st)
  = Some (JSON_stringify (favorites st)).

(** No two fonts of the catalog have the same name. *)
Definition distinct_names (st : State) : Prop :=
  NoDup (map name (fonts st)).

(** A parsed value that [new Set] cannot iterate. *)
Definition not_iterable (v : json) : Prop :=
  match v with
  | JBool _ | JNum _ | JObj _ => True
  | JNull | JStr _ | JArr _ => False
  end.

(** The clear button of the other copy of the script puts the placeholder
    into the input. *)
Definition part000_clearBtn_click (st : Part000.State) : Part000.State :=
  let st := {| Part000.fonts := Part000.fonts st;
               Part000.currentFilter := Part000.currentFilter st;
               Part000.input_value := js "I<ARIM";
               Part000.grid := Part000.grid st;
               Part000.statsCount_textContent :=
                 Part000.statsCount_textContent st |} in
  Part000.renderFonts (Part000.currentFilter st) st.

(** ** [debounce] over any sequence of calls *)



(** ** Typing

    An [input] event at time [t] that leaves [v] in the text input: the
    timers due by [t] run, the browser has put [v] into [input.value], and
    the listener [debouncedUpdateLogos] is called. *)
Definition input_event (w : Debounced unit State) (e : nat * jsstring)
  : Debounced unit State :=
  let w := d_advance updateLogos (fst e) w in
  let w := {| timeout := timeout w; d_timers := d_timers w; d_now := d_now w;
              d_target := set_input_value (snd e) (d_target w);
              invocations := invocations w |} in
  debouncedUpdateLogos () w.

Definition typing (events : list (nat * jsstring)) (w : Debounced unit State)
  : Debounced unit State :=
  fold_left input_event events w.

(** ** A click on a card

    The page as the card listener sees it: the state with its grid, the
    document [copyToClipboard] works on, the toast, and the timers the
    listener sets.  The toast keeps the timers [showToast] sets and the
    clock; the listener's timers are a table of their own: the two kinds of
    callback touch different elements, so the order in which the two tables
    are run does not show.  No render happens between a click and its timer:
    the [i]-th card is the card that was clicked. *)
Inductive CardCallback : Type := remove_copied (i : nat).

Record Page : Type := {
  page_state : State;
  page_document : Document;
  page_toast : Toast;
  card_timers : TimerTable CardCallback
}.

Definition card_with_classList (l : list jsstring) (card : Card) : Card :=
  {| card_classList := l;
     logoDiv_className := logoDiv_className card;
     logoDiv_textContent := logoDiv_textContent card;
     fontInfo_className := fontInfo_className card;
     fontInfo_innerHTML := fontInfo_innerHTML card;
     favoriteBtn_classList := favoriteBtn_classList card;
     favoriteBtn_innerHTML := favoriteBtn_innerHTML card;
     favoriteBtn_title := favoriteBtn_title card;
     copyIndicator_className := copyIndicator_className card;
     copyIndicator_textContent := copyIndicator_textContent card;
     card_font := card_font card |}.

Definition add_copied (card : Card) : Card :=
  card_with_classList (classList_add (js "copied") (card_classList card)) card.

Definition drop_copied (card : Card) : Card :=
  card_with_classList (classList_remove (js "copied") (card_classList card)) card.

Definition page_set_grid (g : list Card) (p : Page) : Page :=
  {| page_state := set_grid g (page_state p);
     page_document := page_document p; page_toast := page_toast p;
     card_timers := card_timers p |}.

Definition page_set_document (doc : Document) (p : Page) : Page :=
  {| page_state := page_state p; page_document := doc;
     page_toast := page_toast p; card_timers := card_timers p |}.

Definition page_set_toast (w : Toast) (p : Page) : Page :=
  {| page_state := page_state p; page_document := page_document p;
     page_toast := w; card_timers := card_timers p |}.

Definition page_set_card_timers (T : TimerTable CardCallback) (p : Page) : Page :=
  {| page_state := page_state p; page_document := page_document p;
     page_toast := page_toast p; card_timers := T |}.

Definition page_now (p : Page) : nat := toast_now (page_toast p).

Definition page_set_now (t : nat) (p : Page) : Page :=
  page_set_toast (toast_set_now t (page_toast p)) p.

(** How long a card stays marked, in milliseconds. *)
Definition copied_delay : nat := 600.

(** The listener of the [i]-th card, the promise of [copyToClipboard] taken
    to settle before anything else happens. *)
Definition card_click (env : Browser) (i : nat) (p : Page) : Page :=
  match grid (page_state p) !! i with
  | None => p
  | Some card =>
      let '(success, doc) :=
        copyToClipboard env (name (card_font card)) (page_document p) in
      let p := page_set_document doc p in
      match success with
      | Ok true =>
          let p := page_set_grid (alter add_copied i (grid (page_state p))) p in
          let p := page_set_toast (showToast (page_toast p)) p in
          let '(_, T) :=
            setTimeout (remove_copied i) copied_delay (page_now p)
                       (card_timers p) in
          page_set_card_timers T p
      | Ok false | Throw _ | Untyped => p
      end
  end.

Definition run_card_callback (c : CardCallback) (p : Page) : Page :=
  let 'remove_copied i := c in
  page_set_grid (alter drop_copied i (grid (page_state p))) p.

(** Time passes on the page: the listener's timers due by [t] run, then the
    toast's. *)
Definition page_advance (t : nat) (p : Page) : Page :=
  let p := advance card_timers page_set_card_timers page_now page_set_now
                   run_card_callback t p in
  page_set_toast (toast_advance t (page_toast p)) p.

Definition card_click_at (env : Browser) (t : nat) (i : nat) (p : Page) : Page :=
  card_click env i (page_advance t p).

Definition copied (card : Card) : bool :=
  bool_decide (js "copied" ∈ card_classList card).

(** A page at rest: the toast hidden, no timer pending. *)
Definition quiet_page (st : State) (doc : Document) (classes : list jsstring)
    (now : nat) : Page :=
  {| page_state := st; page_document := doc;
     page_toast := quiet_toast classes now; card_timers := no_timers |}.

(** A browser whose Clipboard API works. *)
Definition modern_browser : Browser :=
  {| navigator_clipboard := true; isSecureContext := true;
     writeText := λ _, None;
     execCommand := λ _ _, inr true |}.

(** Copies made one after the other, on the same document. *)
Definition copy_all (env : Browser) (texts : list jsstring) (doc : Document)
  : Document :=
  fold_left (λ d text, snd (copyToClipboard env text d)) texts doc.

(* ================================================================== *)
(** * Part II: properties *)
(* ================================================================== *)

(** ** Strings *)

Lemma trimStart_nil_iff s : trimStart s = [] ↔ whitespace_only s = true.
Proof.
  unfold whitespace_only.
  induction s as [|c s IH]; simpl; [done|].
  destruct (is_js_space c); simpl; [done|]. by split.
Qed.

Lemma whitespace_only_rev s : whitespace_only (rev s) = whitespace_only s.
Proof.
  unfold whitespace_only. induction s as [|c s IH]; simpl; [done|].
  rewrite forallb_app, IH. simpl. rewrite andb_true_r. apply andb_comm.
Qed.

(** [trimStart] drops a run of white space and stops at the first code unit
    that is not. *)
Lemma trimStart_spec s :
  ∃ pre, s = pre ++ trimStart s ∧ whitespace_only pre = true ∧
         (∀ c r, trimStart s = c :: r → is_js_space c = false).
Proof.
  induction s as [|c s (pre & Heq & Hws & Hhd)]; simpl.
  - exists []. by split_and!.
  - destruct (is_js_space c) eqn:Hc.
    + exists (c :: pre). split_and!; [by simpl; f_equal| |done].
      unfold whitespace_only in *. simpl. by rewrite Hc.
    + exists []. split_and!; [done..|]. by intros ?? [= <- _].
Qed.

(** [trim] removes white space at both ends and nothing else. *)
Lemma trim_spec s :
  ∃ pre post, s = pre ++ trim s ++ post ∧
    whitespace_only pre = true ∧ whitespace_only post = true ∧
    (∀ c r, trim s = c :: r → is_js_space c = false) ∧
    (∀ c r, trim s = r ++ [c] → is_js_space c = false).
Proof.
  destruct (trimStart_spec s) as (pre & Heq & Hpre & Hhd).
  destruct (trimStart_spec (rev (trimStart s))) as (tsop & Heq' & Hpost & Hlast).
  exists pre, (rev tsop). unfold trim, trimEnd.
  assert (Hmid : trimStart s = rev (trimStart (rev (trimStart s))) ++ rev tsop).
  { rewrite <- rev_app_distr, <- Heq'. by rewrite rev_involutive. }
  split_and!.
  - by rewrite <- Hmid.
  - done.
  - by rewrite whitespace_only_rev.
  - intros c r Hc. destruct (trimStart (rev (trimStart s))) as [|d t] eqn:Ht.
    { discriminate. }
    apply (Hhd c (r ++ rev tsop)). by rewrite Hmid, Hc.
  - intros c r Hc. apply (Hlast c (rev r)).
    apply (f_equal (@rev N)) in Hc. rewrite rev_involutive in Hc.
    by rewrite Hc, rev_app_distr.
Qed.

Lemma trim_nil_iff s : trim s = [] ↔ whitespace_only s = true.
Proof.
  unfold trim, trimEnd. split.
  - intros H. apply (f_equal (@rev N)) in H. rewrite rev_involutive in H.
    simpl in H. apply trimStart_nil_iff in H. rewrite whitespace_only_rev in H.
    destruct (trimStart_spec s) as (pre & Heq & Hpre & _).
    rewrite Heq. unfold whitespace_only in *. rewrite forallb_app.
    by rewrite Hpre, H.
  - intros H. apply trimStart_nil_iff in H. by rewrite H.
Qed.

Lemma currentText_cases st :
  currentText st =
  if whitespace_only (input_value st) then js "ABC" else trim (input_value st).
Proof.
  unfold currentText, or_else.
  destruct (trim (input_value st)) as [|c r] eqn:Ht.
  - apply trim_nil_iff in Ht. by rewrite Ht.
  - destruct (whitespace_only _) eqn:Hw; [|done].
    apply trim_nil_iff in Hw. congruence.
Qed.

Lemma js_inj : Inj (=) (=) js.
Proof.
  intros a b H. unfold js in H.
  rewrite <- (string_of_list_ascii_of_string a),
          <- (string_of_list_ascii_of_string b).
  f_equal. revert H. generalize (list_ascii_of_string b).
  induction (list_ascii_of_string a) as [|x l IH]; intros [|y m] H;
    simplify_eq/=; [done|].
  f_equal; [|by apply IH].
  by rewrite <- (ascii_N_embedding x), <- (ascii_N_embedding y), H.
Qed.

(** Two lengths shown by the same text are the same length. *)
Lemma Number_toString_inj : Inj (=) (=) Number_toString.
Proof. intros m n H. by apply pretty_nat_inj, js_inj. Qed.

(** ** The [Set] operations *)

Lemma Set_has_true x S : Set_has x S = true ↔ x ∈ S.
Proof. unfold Set_has. apply bool_decide_eq_true. Qed.

Lemma Set_has_false x S : Set_has x S = false ↔ x ∉ S.
Proof. unfold Set_has. apply bool_decide_eq_false. Qed.

Lemma elem_of_Set_add x y S : y ∈ Set_add x S ↔ y = x ∨ y ∈ S.
Proof.
  unfold Set_add. destruct (Set_has x S) eqn:H.
  - apply Set_has_true in H. split; [by right|]. by intros [->|?].
  - rewrite elem_of_app, list_elem_of_singleton. tauto.
Qed.

Lemma elem_of_Set_delete x y S : y ∈ Set_delete x S ↔ y ≠ x ∧ y ∈ S.
Proof. unfold Set_delete. by rewrite list_elem_of_filter. Qed.

Lemma NoDup_Set_add x S : NoDup S → NoDup (Set_add x S).
Proof.
  intros HS. unfold Set_add. destruct (Set_has x S) eqn:H; [done|].
  apply Set_has_false in H. apply NoDup_app. split_and!; [done| |apply NoDup_singleton].
  intros y Hy ->%list_elem_of_singleton. done.
Qed.

Lemma NoDup_Set_delete x S : NoDup S → NoDup (Set_delete x S).
Proof. apply NoDup_filter. Qed.

Lemma Set_delete_absent x S : x ∉ S → Set_delete x S = S.
Proof.
  intros H. unfold Set_delete. induction S as [|y S IH]; [done|].
  rewrite filter_cons. apply not_elem_of_cons in H as [Hne HS].
  rewrite decide_True by done. by rewrite IH.
Qed.

(** A list without duplicates is the set it builds. *)
Lemma Set_of_list_NoDup l : NoDup l → Set_of_list l = l.
Proof.
  unfold Set_of_list. intros H.
  enough (∀ acc, NoDup (acc ++ l) →
            fold_left (λ S x, Set_add x S) l acc = acc ++ l) as G.
  { by apply (G []). }
  clear H. induction l as [|x l IH]; intros acc Hnd; simpl.
  - by rewrite app_nil_r.
  - assert (x ∉ acc) as Hx.
    { apply NoDup_app in Hnd as (_ & Hd & _). intros Hin.
      apply (Hd x Hin). by left. }
    unfold Set_add at 2. apply Set_has_false in Hx. rewrite Hx.
    rewrite IH; rewrite <- app_assoc; done.
Qed.

(** ** [JSON.parse] reads back what [JSON.stringify] wrote *)

Section JSONRoundTrip.
Local Open Scope N_scope.

Lemma hex_value_digit d : d < 16 → hex_value (hex_digit d) = Some d.
Proof.
  intros Hd.
  assert (d = 0 ∨ d = 1 ∨ d = 2 ∨ d = 3 ∨ d = 4 ∨ d = 5 ∨ d = 6 ∨ d = 7
          ∨ d = 8 ∨ d = 9 ∨ d = 10 ∨ d = 11 ∨ d = 12 ∨ d = 13 ∨ d = 14
          ∨ d = 15) as H by lia.
  repeat (destruct H as [->|H]; [reflexivity|]). by subst.
Qed.

Lemma hex_digits_value c :
  c < 65536 →
  c / 4096 mod 16 < 16 ∧ c / 256 mod 16 < 16 ∧ c / 16 mod 16 < 16
  ∧ c mod 16 < 16
  ∧ ((c / 4096 mod 16 * 16 + c / 256 mod 16) * 16 + c / 16 mod 16) * 16
    + c mod 16 = c.
Proof.
  intros Hc.
  replace (c / 4096) with (c / 16 / 16 / 16)
    by (rewrite !N.Div0.div_div; reflexivity).
  replace (c / 256) with (c / 16 / 16)
    by (rewrite !N.Div0.div_div; reflexivity).
  pose proof (N.div_mod' c 16).
  pose proof (N.div_mod' (c / 16) 16).
  pose proof (N.div_mod' (c / 16 / 16) 16).
  pose proof (N.div_mod' (c / 16 / 16 / 16) 16).
  pose proof (N.mod_lt c 16).
  pose proof (N.mod_lt (c / 16) 16).
  pose proof (N.mod_lt (c / 16 / 16) 16).
  pose proof (N.mod_lt (c / 16 / 16 / 16) 16).
  set (r1 := c mod 16) in *. set (q1 := c / 16) in *.
  set (r2 := q1 mod 16) in *. set (q2 := q1 / 16) in *.
  set (r3 := q2 mod 16) in *. set (q3 := q2 / 16) in *.
  set (r4 := q3 mod 16) in *. set (q4 := q3 / 16) in *.
  clearbody r1 r2 r3 r4 q4. clearbody q3. clearbody q2. clearbody q1.
  lia.
Qed.

Lemma hex4_unicode_escape c :
  c < 65536 →
  hex4 (hex_digit (c / 4096 mod 16)) (hex_digit (c / 256 mod 16))
       (hex_digit (c / 16 mod 16)) (hex_digit (c mod 16)) = Some c.
Proof.
  intros Hc. destruct (hex_digits_value c Hc) as (H1 & H2 & H3 & H4 & Heq).
  unfold hex4. rewrite !hex_value_digit by done. simpl. by rewrite Heq.
Qed.

Lemma parse_chars_escape c tail body rest :
  c < 65536 →
  parse_chars tail = Some (body, rest) →
  parse_chars (unicode_escape c ++ tail) = Some (c :: body, rest).
Proof.
  intros Hc Ht. pose proof (hex4_unicode_escape c Hc) as H.
  unfold unicode_escape. cbn [app parse_chars].
  change (0x5C =? 0x22) with false. change (0x5C =? 0x5C) with true.
  change (0x75 =? 0x75) with true. cbv iota.
  rewrite H, Ht. reflexivity.
Qed.

Lemma parse_chars_unit c tail body rest :
  parse_chars tail = Some (body, rest) →
  parse_chars (quote_unit c ++ tail) = Some (c :: body, rest).
Proof.
  intros Ht. unfold quote_unit.
  destruct (c =? 0x08) eqn:E1; [apply N.eqb_eq in E1 as ->; simpl; by rewrite Ht|].
  destruct (c =? 0x09) eqn:E2; [apply N.eqb_eq in E2 as ->; simpl; by rewrite Ht|].
  destruct (c =? 0x0A) eqn:E3; [apply N.eqb_eq in E3 as ->; simpl; by rewrite Ht|].
  destruct (c =? 0x0C) eqn:E4; [apply N.eqb_eq in E4 as ->; simpl; by rewrite Ht|].
  destruct (c =? 0x0D) eqn:E5; [apply N.eqb_eq in E5 as ->; simpl; by rewrite Ht|].
  destruct (c =? 0x22) eqn:E6; [apply N.eqb_eq in E6 as ->; simpl; by rewrite Ht|].
  destruct (c =? 0x5C) eqn:E7; [apply N.eqb_eq in E7 as ->; simpl; by rewrite Ht|].
  destruct ((c <? 0x20) || is_high_surrogate c || is_low_surrogate c) eqn:E8.
  - apply parse_chars_escape; [|done].
    unfold is_high_surrogate, is_low_surrogate in E8.
    apply orb_true_iff in E8 as [E8|E8]; [apply orb_true_iff in E8 as [E8|E8]|].
    + apply N.ltb_lt in E8. lia.
    + apply andb_true_iff in E8 as [_ E8]. apply N.leb_le in E8. lia.
    + apply andb_true_iff in E8 as [_ E8]. apply N.leb_le in E8. lia.
  - apply orb_false_iff in E8 as [E8 _]. apply orb_false_iff in E8 as [E8 _].
    cbn [app parse_chars]. by rewrite E6, E7, E8, Ht.
Qed.

Lemma surrogate_is_plain c :
  is_high_surrogate c || is_low_surrogate c = true →
  (c =? 0x22) = false ∧ (c =? 0x5C) = false ∧ (c <? 0x20) = false.
Proof.
  unfold is_high_surrogate, is_low_surrogate. intros H.
  apply orb_true_iff in H as [H|H]; apply andb_true_iff in H as [H _];
    apply N.leb_le in H; split_and!;
    try (apply N.eqb_neq; lia); apply N.ltb_ge; lia.
Qed.

Lemma quote_chars_cons c d r :
  quote_chars (c :: d :: r)
  = if is_high_surrogate c && is_low_surrogate d
    then c :: d :: quote_chars r
    else quote_unit c ++ quote_chars (d :: r).
Proof. reflexivity. Qed.

Lemma parse_chars_quote_chars (s rest : jsstring) :
  parse_chars (quote_chars s ++ 0x22 :: rest) = Some (s, rest).
Proof.
  remember (length s) as n eqn:Hn.
  revert s Hn. induction (lt_wf n) as [n _ IH]. intros s Hn.
  destruct s as [|c [|d r]].
  - reflexivity.
  - simpl quote_chars. by apply parse_chars_unit.
  - rewrite quote_chars_cons.
    destruct (is_high_surrogate c && is_low_surrogate d) eqn:Hpair.
    + apply andb_true_iff in Hpair as [Hc Hd].
      destruct (surrogate_is_plain c) as (c1 & c2 & c3); [by rewrite Hc|].
      destruct (surrogate_is_plain d) as (d1 & d2 & d3);
        [by rewrite Hd, orb_true_r|].
      cbn [app parse_chars]. rewrite c1, c2, c3, d1, d2, d3.
      rewrite (IH (length r)); [done| |done]. subst n. simpl. lia.
    + rewrite <- app_assoc. apply parse_chars_unit.
      apply (IH (length (d :: r))); [|done]. subst n. simpl. lia.
Qed.

Lemma parse_value_quote (fuel : nat) (r : jsstring) :
  parse_value (S fuel) (0x22 :: r)
  = '(t, rest) ← parse_chars r; Some (JStr t, rest).
Proof. reflexivity. Qed.

Lemma parse_value_bracket (fuel : nat) (r : jsstring) :
  parse_value (S fuel) (0x5B :: 0x22 :: r)
  = '(vs, rest) ← parse_elements fuel (0x22 :: r); Some (JArr vs, rest).
Proof. reflexivity. Qed.

Lemma parse_elements_comma (fuel : nat) (s r : jsstring) (v : json) :
  parse_value fuel s = Some (v, 0x2C :: r) →
  parse_elements (S fuel) s
  = '(vs, rest) ← parse_elements fuel r; Some (v :: vs, rest).
Proof. intros H. cbn [parse_elements]. rewrite H. reflexivity. Qed.

Lemma parse_elements_end (fuel : nat) (s r : jsstring) (v : json) :
  parse_value fuel s = Some (v, 0x5D :: r) →
  parse_elements (S fuel) s = Some ([v], r).
Proof. intros H. cbn [parse_elements]. rewrite H. reflexivity. Qed.

Lemma parse_value_string (fuel : nat) (s rest : jsstring) :
  parse_value (S fuel) (QuoteJSONString s ++ rest) = Some (JStr s, rest).
Proof.
  unfold QuoteJSONString. cbn [app]. rewrite parse_value_quote.
  rewrite <- app_assoc. cbn [app]. by rewrite parse_chars_quote_chars.
Qed.

Lemma join_comma_cons (x y : jsstring) (l : list jsstring) :
  join_comma (x :: y :: l) = x ++ 0x2C :: join_comma (y :: l).
Proof. reflexivity. Qed.

Lemma parse_elements_names (l : list jsstring) (x : jsstring)
    (fuel : nat) (rest : jsstring) :
  (length l < fuel)%nat →
  parse_elements (S fuel)
    (join_comma (map QuoteJSONString (x :: l)) ++ 0x5D :: rest)
  = Some (map JStr (x :: l), rest).
Proof.
  revert x fuel. induction l as [|y l IH]; intros x fuel Hf.
  - destruct fuel as [|fuel]; [simpl in Hf; lia|].
    apply parse_elements_end. cbn [map join_comma].
    apply parse_value_string.
  - destruct fuel as [|fuel]; [simpl in Hf; lia|].
    cbn [map]. rewrite join_comma_cons, <- app_assoc. cbn [app].
    erewrite parse_elements_comma by apply parse_value_string.
    change (QuoteJSONString y :: map QuoteJSONString l)
      with (map QuoteJSONString (y :: l)).
    rewrite IH by (simpl in Hf; lia). reflexivity.
Qed.

Lemma length_QuoteJSONString s : (2 ≤ length (QuoteJSONString s))%nat.
Proof. unfold QuoteJSONString. simpl. rewrite length_app. simpl. lia. Qed.

Lemma length_join_comma (l : list jsstring) :
  (length l ≤ length (join_comma (map QuoteJSONString l)))%nat.
Proof.
  induction l as [|x [|y l] IH]; [done| |].
  - simpl. pose proof (length_QuoteJSONString x). lia.
  - cbn [map] in *. rewrite join_comma_cons, length_app.
    pose proof (length_QuoteJSONString x). simpl in *. lia.
Qed.

Lemma JSON_parse_stringify (l : list jsstring) :
  JSON_parse (JSON_stringify l) = Ok (JArr (map JStr l)).
Proof.
  unfold JSON_parse, JSON_stringify.
  destruct l as [|x l]; [reflexivity|].
  set (text := 0x5B :: join_comma (map QuoteJSONString (x :: l)) ++ [0x5D]).
  assert (length l + 2 < 2 * length text + 1)%nat as Hfuel.
  { unfold text. simpl length. rewrite length_app.
    pose proof (length_join_comma (x :: l)). simpl in *. lia. }
  replace (2 * length text + 2)%nat with (S (2 * length text + 1)) by lia.
  destruct (2 * length text + 1)%nat as [|fuel] eqn:Hf; [lia|].
  unfold text.
  assert (∃ tl, join_comma (map QuoteJSONString (x :: l)) ++ [0x5D]
                = 0x22 :: tl) as [tl Htl].
  { cbn [map]. unfold QuoteJSONString at 1.
    destruct (map QuoteJSONString l); simpl; eauto. }
  rewrite Htl, parse_value_bracket, <- Htl.
  rewrite (parse_elements_names l x fuel []) by lia.
  reflexivity.
Qed.

Lemma strings_of_JStr l : strings_of (map JStr l) = Some l.
Proof. induction l as [|x l IH]; [done|]. simpl. by rewrite IH. Qed.

Lemma JSON_stringify_truthy l : truthy (JSON_stringify l) = true.
Proof. reflexivity. Qed.
End JSONRoundTrip.

(** ** The fuel of [JSON.parse] *)

Section Fuel.
Local Open Scope N_scope.

Lemma skip_ws_length s : (length (skip_ws s) ≤ length s)%nat.
Proof.
  induction s as [|c s IH]; simpl; [done|].
  destruct (is_json_ws c); simpl; lia.
Qed.

Lemma parse_chars_length s t rest :
  parse_chars s = Some (t, rest) → (length rest < length s)%nat.
Proof.
  remember (length s) as n eqn:Hn. revert s t rest Hn.
  induction (lt_wf n) as [n _ IH]. intros s t rest Hn H.
  destruct s as [|c r]; [done|]. cbn [parse_chars] in H.
  destruct (c =? 0x22); [simplify_eq/=; lia|].
  destruct (c =? 0x5C).
  - destruct r as [|e r']; [done|].
    destruct (e =? 0x75).
    + destruct r' as [|h1 [|h2 [|h3 [|h4 r'']]]]; try done.
      destruct (hex4 h1 h2 h3 h4); [|done]. simpl in H.
      destruct (parse_chars r'') as [[t' rest']|] eqn:Hr; [|done].
      simplify_eq/=. 
      specialize (IH (length r'') ltac:(simpl; lia) r'' _ _ eq_refl Hr). lia.
    + destruct (if e =? 34 then _ else _); [|done]. simpl in H.
      destruct (parse_chars r') as [[t' rest']|] eqn:Hr; [|done].
      simplify_eq/=.
      specialize (IH (length r') ltac:(simpl; lia) r' _ _ eq_refl Hr). lia.
  - destruct (c <? 0x20); [done|].
    destruct (parse_chars r) as [[t' rest']|] eqn:Hr; [|done].
    simplify_eq/=.
    specialize (IH (length r) ltac:(simpl; lia) r _ _ eq_refl Hr). lia.
Qed.

Lemma take_digits_length s ds rest :
  take_digits s = (ds, rest) → (length rest ≤ length s)%nat.
Proof.
  revert ds rest. induction s as [|c s IH]; intros ds rest H; simpl in H.
  - by simplify_eq/=.
  - destruct (is_digit c); [|simplify_eq/=; lia].
    destruct (take_digits s) as [ds' rest'] eqn:Hd. simplify_eq/=.
    specialize (IH _ _ eq_refl). lia.
Qed.

Lemma strip_prefix_length p s rest :
  strip_prefix p s = Some rest → (length rest + length p = length s)%nat.
Proof.
  revert s. induction p as [|a p IH]; intros s H; simpl in H.
  - simplify_eq/=. lia.
  - destruct s as [|b s]; [done|]. destruct (a =? b); [|done].
    apply IH in H. simpl. lia.
Qed.

Lemma parse_number_length s lit rest :
  parse_number s = Some (lit, rest) → (length rest < length s)%nat.
Proof.
  unfold parse_number. intros H.
  repeat (case_match; simplify_eq/=);
    repeat match goal with
           | H : take_digits _ = _ |- _ => apply take_digits_length in H
           end; simpl in *; try lia.
Qed.




Lemma parse_fuel n :
  fuel_suffices parse_value n ∧ fuel_suffices parse_elements n
  ∧ fuel_suffices parse_members n.
Proof.
  induction n as [|n (IHv & IHe & IHm)]; [by split_and!|].
  split_and!.
  - intros s v rest H. cbn [parse_value] in H.
    pose proof (skip_ws_length s) as Hws.
    destruct (skip_ws s) as [|c r] eqn:Hs; [done|]. simpl in Hws.
    destruct (c =? 0x22) eqn:E1.
    { destruct (parse_chars r) as [[t rest']|] eqn:Hc; [|done].
      pose proof (parse_chars_length _ _ _ Hc) as Hl.
      simpl in H. simplify_eq. split; [lia|].
      intros [|f] Hf; [lia|]. cbn [parse_value]. by rewrite Hs, E1, Hc. }
    destruct (c =? 0x5B) eqn:E2.
    { pose proof (skip_ws_length r) as Hws'.
      destruct (skip_ws r) as [|d r'] eqn:Hr; [done|]. simpl in Hws'.
      destruct (d =? 0x5D) eqn:E3.
      - simplify_eq/=. split; [lia|].
        intros [|f] Hf; [lia|]. cbn [parse_value]. by rewrite Hs, E1, E2, Hr, E3.
      - destruct (parse_elements n r) as [[vs rest']|] eqn:He; [|done].
        simplify_eq/=. destruct (IHe _ _ _ He) as [Hl Hfuel]. split; [lia|].
        intros [|f] Hf; [lia|]. cbn [parse_value]. rewrite Hs, E1, E2, Hr, E3.
        by rewrite Hfuel by lia. }
    destruct (c =? 0x7B) eqn:E4.
    { pose proof (skip_ws_length r) as Hws'.
      destruct (skip_ws r) as [|d r'] eqn:Hr; [done|]. simpl in Hws'.
      destruct (d =? 0x7D) eqn:E3.
      - simplify_eq/=. split; [lia|].
        intros [|f] Hf; [lia|]. cbn [parse_value].
        by rewrite Hs, E1, E2, E4, Hr, E3.
      - destruct (parse_members n r) as [[ms rest']|] eqn:He; [|done].
        simplify_eq/=. destruct (IHm _ _ _ He) as [Hl Hfuel]. split; [lia|].
        intros [|f] Hf; [lia|]. cbn [parse_value]. rewrite Hs, E1, E2, E4, Hr, E3.
        by rewrite Hfuel by lia. }
    destruct (c =? 0x6E) eqn:E5.
    { destruct (strip_prefix (js "null") (c :: r)) as [rest'|] eqn:Hp; [|done].
      pose proof (strip_prefix_length _ _ _ Hp) as Hl. simpl length in Hl.
      simpl in H. simplify_eq.
      split; [lia|]. intros [|f] Hf; [lia|]. cbn [parse_value].
      by rewrite Hs, E1, E2, E4, E5, Hp. }
    destruct (c =? 0x74) eqn:E6.
    { destruct (strip_prefix (js "true") (c :: r)) as [rest'|] eqn:Hp; [|done].
      pose proof (strip_prefix_length _ _ _ Hp) as Hl. simpl length in Hl.
      simpl in H. simplify_eq.
      split; [lia|]. intros [|f] Hf; [lia|]. cbn [parse_value].
      by rewrite Hs, E1, E2, E4, E5, E6, Hp. }
    destruct (c =? 0x66) eqn:E7.
    { destruct (strip_prefix (js "false") (c :: r)) as [rest'|] eqn:Hp; [|done].
      pose proof (strip_prefix_length _ _ _ Hp) as Hl. simpl length in Hl.
      simpl in H. simplify_eq.
      split; [lia|]. intros [|f] Hf; [lia|]. cbn [parse_value].
      by rewrite Hs, E1, E2, E4, E5, E6, E7, Hp. }
    destruct (parse_number (c :: r)) as [[lit rest']|] eqn:Hp; [|done].
    pose proof (parse_number_length _ _ _ Hp) as Hl. simpl length in Hl.
    simpl in H. simplify_eq.
    split; [lia|]. intros [|f] Hf; [lia|]. cbn [parse_value].
    by rewrite Hs, E1, E2, E4, E5, E6, E7, Hp.
  - intros s vs rest H. cbn [parse_elements] in H.
    destruct (parse_value n s) as [[v r]|] eqn:Hv; [|done]. simpl in H.
    destruct (IHv _ _ _ Hv) as [Hl Hfuel].
    pose proof (skip_ws_length r) as Hws.
    destruct (skip_ws r) as [|c r'] eqn:Hr; [done|]. simpl in Hws.
    destruct (c =? 0x2C) eqn:E1.
    + destruct (parse_elements n r') as [[vs' rest']|] eqn:He; [|done].
      simplify_eq/=. destruct (IHe _ _ _ He) as [Hl' Hfuel']. split; [lia|].
      intros [|f] Hf; [lia|]. cbn [parse_elements].
      rewrite Hfuel by lia. simpl. rewrite Hr, E1. by rewrite Hfuel' by lia.
    + destruct (c =? 0x5D) eqn:E2; [|done]. simplify_eq/=. split; [lia|].
      intros [|f] Hf; [lia|]. cbn [parse_elements].
      rewrite Hfuel by lia. simpl. by rewrite Hr, E1, E2.
  - intros s ms rest H. cbn [parse_members] in H.
    pose proof (skip_ws_length s) as Hws0.
    destruct (skip_ws s) as [|q r0] eqn:Hs; [done|]. simpl in Hws0.
    destruct (q =? 0x22) eqn:E0; [|done].
    destruct (parse_chars r0) as [[k r1]|] eqn:Hk; [|done]. simpl in H.
    apply parse_chars_length in Hk as Hlk.
    pose proof (skip_ws_length r1) as Hws1.
    destruct (skip_ws r1) as [|colon r2] eqn:Hr1; [done|]. simpl in Hws1.
    destruct (colon =? 0x3A) eqn:E1; [|done].
    destruct (parse_value n r2) as [[v r]|] eqn:Hv; [|done]. simpl in H.
    destruct (IHv _ _ _ Hv) as [Hl Hfuel].
    pose proof (skip_ws_length r) as Hws.
    destruct (skip_ws r) as [|c r'] eqn:Hr; [done|]. simpl in Hws.
    destruct (c =? 0x2C) eqn:E2.
    + destruct (parse_members n r') as [[ms' rest']|] eqn:He; [|done].
      simplify_eq/=. destruct (IHm _ _ _ He) as [Hl' Hfuel']. split; [lia|].
      intros [|f] Hf; [lia|]. cbn [parse_members].
      rewrite Hs, E0, Hk. simpl. rewrite Hr1, E1. rewrite Hfuel by lia. simpl.
      rewrite Hr, E2. by rewrite Hfuel' by lia.
    + destruct (c =? 0x7D) eqn:E3; [|done]. simplify_eq/=. split; [lia|].
      intros [|f] Hf; [lia|]. cbn [parse_members].
      rewrite Hs, E0, Hk. simpl. rewrite Hr1, E1. rewrite Hfuel by lia. simpl.
      by rewrite Hr, E2, E3.
Qed.

(** The fuel [JSON_parse] hands to the parser is enough: a text that some
    amount of fuel parses is parsed by [JSON_parse] to the same value. *)
Lemma JSON_parse_fuel (n : nat) (text : jsstring) (v : json) (rest : jsstring) :
  parse_value n text = Some (v, rest) →
  parse_value (2 * length text + 2) text = Some (v, rest).
Proof.
  intros H. destruct (parse_fuel n) as (Hv & _ & _).
  destruct (Hv _ _ _ H) as [_ Hfuel]. apply Hfuel. lia.
Qed.
End Fuel.

(** ** Rendering *)

Lemma set_grid_id st : set_grid (grid st) st = st.
Proof. by destruct st. Qed.

Lemma fold_appendChild favs text (l : list Font) st :
  favorites st = favs →
  fold_left (λ st font, appendChild (make_card (favorites st) text font) st) l st
  = set_grid (grid st ++ map (make_card favs text) l) st.
Proof.
  revert st. induction l as [|x l IH]; intros st Hf; simpl.
  - rewrite app_nil_r. by rewrite set_grid_id.
  - rewrite IH by done. unfold appendChild, set_grid; simpl.
    by rewrite <- app_assoc, Hf.
Qed.

Lemma renderFonts_unfold flt st :
  renderFonts flt st =
  set_grid (map (make_card (favorites st) (currentText st))
                (filteredFonts (default (js "all") flt) st))
    (set_statsCount
       (Number_toString (length (filteredFonts (default (js "all") flt) st))) st).
Proof.
  unfold renderFonts. rewrite (fold_appendChild (favorites st)) by done.
  reflexivity.
Qed.

Lemma filteredFonts_satisfies flt st :
  filteredFonts flt st = List.filter (satisfies flt (favorites st)) (fonts st).
Proof.
  unfold filteredFonts, satisfies.
  destruct (decide (flt = js "favorites")) as [?|?].
  - induction (fonts st) as [|x l IH]; [done|]. simpl. rewrite filter_cons.
    unfold Set_has. destruct (decide _) as [H|H]; rewrite <- IH.
    + by rewrite H.
    + by destruct (bool_decide _).
  - destruct (decide (flt = js "all")).
    + induction (fonts st) as [|x l IH]; [done|]. simpl. by rewrite <- IH.
    + induction (fonts st) as [|x l IH]; [done|]. simpl. rewrite filter_cons.
      destruct (decide _) as [H|H]; rewrite <- IH.
      * by rewrite bool_decide_true.
      * by rewrite bool_decide_false.
Qed.

Lemma length_filter_count p (l : list Font) :
  length (List.filter p l) = count_satisfying p l.
Proof. induction l as [|x l IH]; [done|]. simpl. destruct (p x); simpl; lia. Qed.

(** C1: for every catalog, favorite set and filter, [renderFonts] leaves as
    many cards in the grid as the catalog has entries satisfying the
    filter's predicate, and sets the count element to the decimal text of
    that number. A call without argument renders with ["all"]. *)
Theorem renderFonts_count (filter_arg : option jsstring) (st : State) :
  let f := default (js "all") filter_arg in
  let n := count_satisfying (satisfies f (favorites st)) (fonts st) in
  length (grid (renderFonts filter_arg st)) = n ∧
  statsCount_textContent (renderFonts filter_arg st) = Number_toString n ∧
  (∀ m, statsCount_textContent (renderFonts filter_arg st) = Number_toString m →
        m = n).
Proof.
  intros f n. rewrite renderFonts_unfold. simpl. fold f.
  rewrite length_map, filteredFonts_satisfies, length_filter_count. fold n.
  split_and!; [done..|]. intros m Hm. by apply Number_toString_inj.
Qed.

(** C7: after [renderFonts] the grid is exactly the list of cards made, in
    catalog order, from the catalog entries that pass the filter; whatever
    the grid held before the call has no influence on the result. *)
Theorem renderFonts_grid (filter_arg : option jsstring) (st : State) :
  let f := default (js "all") filter_arg in
  let passing := List.filter (satisfies f (favorites st)) (fonts st) in
  grid (renderFonts filter_arg st)
    = map (make_card (favorites st) (currentText st)) passing ∧
  map card_font (grid (renderFonts filter_arg st)) = passing ∧
  (∀ previous, renderFonts filter_arg (set_grid previous st)
               = renderFonts filter_arg st).
Proof.
  intros f passing. rewrite renderFonts_unfold. simpl. fold f.
  rewrite filteredFonts_satisfies. fold passing. split_and!.
  - done.
  - clearbody passing. induction passing as [|x l IH]; simpl; [done|]. by f_equal.
  - intros previous. rewrite renderFonts_unfold, filteredFonts_satisfies.
    reflexivity.
Qed.

Lemma fold_left_snoc {A B : Type} (f : A → B) (l : list A) (g : list B) :
  fold_left (λ g x, g ++ [f x]) l g = g ++ map f l.
Proof.
  revert g. induction l as [|x l IH]; intros g; simpl; [by rewrite app_nil_r|].
  by rewrite IH, <- app_assoc.
Qed.

Lemma part000_grid filter_arg (st : Part000.State) :
  Part000.grid (Part000.renderFonts filter_arg st)
  = map (Part000.make_card (Part000.currentText st))
        (Part000.filteredFonts (default (js "all") filter_arg) st).
Proof. unfold Part000.renderFonts. simpl. by rewrite fold_left_snoc. Qed.

(** C8, as the claim states it, fails on the copy of the script that does not
    trim: over a one-font catalog and an input of one space, the card shows
    the space, which is neither the trimmed input (empty) nor the
    placeholder, although the input is white space only. *)
Lemma part000_sample_text_untrimmed :
  let retro := {| name := js "Retro"; category := js "serif";
                  class := js "f-retro" |} in
  let st := {| Part000.fonts := [retro]; Part000.currentFilter := Some (js "all");
               Part000.input_value := js " "; Part000.grid := [];
               Part000.statsCount_textContent := [] |} in
  whitespace_only (Part000.input_value st) = true ∧
  map Part000.logoDiv_textContent (Part000.grid (Part000.renderFonts None st))
    = [js " "] ∧
  js " " ≠ js "I<ARIM" ∧ js " " ≠ trim (js " ").
Proof. by vm_compute. Qed.

(** C8, amended: every card of a render shows one sample text.  In
    [script.js] it is the placeholder ["ABC"] exactly when the input value is
    empty or white space only, and the trimmed input value otherwise.  In the
    other copy of the script it is the placeholder ["I<ARIM"] exactly when the
    input value is empty, and the input value as it stands otherwise. *)
Theorem sample_text (filter_arg : option jsstring) (st : State)
    (st0 : Part000.State) :
  (Forall (λ card, logoDiv_textContent card = currentText st)
          (grid (renderFonts filter_arg st)) ∧
   currentText st = if whitespace_only (input_value st) then js "ABC"
                    else trim (input_value st)) ∧
  (Forall (λ card, Part000.logoDiv_textContent card = Part000.currentText st0)
          (Part000.grid (Part000.renderFonts filter_arg st0)) ∧
   Part000.currentText st0 = match Part000.input_value st0 with
                             | [] => js "I<ARIM"
                             | _ :: _ => Part000.input_value st0
                             end).
Proof.
  split_and!.
  - rewrite renderFonts_unfold. simpl. apply Forall_fmap, Forall_true. done.
  - apply currentText_cases.
  - rewrite part000_grid. apply Forall_fmap, Forall_true. done.
  - unfold Part000.currentText, or_else. by destruct (Part000.input_value st0).
Qed.

(** ** Favorites *)

Lemma set_favorites_id st : set_favorites (favorites st) st = st.
Proof. by destruct st. Qed.

(** A render touches the grid and the count, nothing else. *)
Lemma renderFonts_frame filter_arg st :
  fonts (renderFonts filter_arg st) = fonts st ∧
  currentFilter (renderFonts filter_arg st) = currentFilter st ∧
  favorites (renderFonts filter_arg st) = favorites st ∧
  localStorage (renderFonts filter_arg st) = localStorage st ∧
  input_value (renderFonts filter_arg st) = input_value st.
Proof. by rewrite renderFonts_unfold. Qed.

(** The favorite set [toggleFavorite] installs. *)
Lemma toggleFavorite_favorites n st :
  favorites (toggleFavorite n st)
  = if Set_has n (favorites st) then Set_delete n (favorites st)
    else Set_add n (favorites st).
Proof.
  unfold toggleFavorite. case_decide.
  - destruct (renderFonts_frame (currentFilter (saveFavorites
      (if Set_has n (favorites st)
       then set_favorites (Set_delete n (favorites st)) st
       else set_favorites (Set_add n (favorites st)) st)))
      (saveFavorites
      (if Set_has n (favorites st)
       then set_favorites (Set_delete n (favorites st)) st
       else set_favorites (Set_add n (favorites st)) st))) as (_ & _ & -> & _).
    by destruct (Set_has n (favorites st)).
  - by destruct (Set_has n (favorites st)).
Qed.

(** The storage [toggleFavorite] leaves: one [setItem] of the new set. *)
Lemma toggleFavorite_localStorage n st :
  localStorage (toggleFavorite n st)
  = setItem fontFavorites (JSON_stringify (favorites (toggleFavorite n st)))
            (localStorage st).
Proof.
  rewrite toggleFavorite_favorites. unfold toggleFavorite. case_decide.
  - destruct (renderFonts_frame (currentFilter (saveFavorites
      (if Set_has n (favorites st)
       then set_favorites (Set_delete n (favorites st)) st
       else set_favorites (Set_add n (favorites st)) st)))
      (saveFavorites
      (if Set_has n (favorites st)
       then set_favorites (Set_delete n (favorites st)) st
       else set_favorites (Set_add n (favorites st)) st)))
      as (_ & _ & _ & -> & _).
    by destruct (Set_has n (favorites st)).
  - by destruct (Set_has n (favorites st)).
Qed.




Lemma Set_delete_add n S : n ∉ S → Set_delete n (Set_add n S) = S.
Proof.
  intros H. unfold Set_add. apply Set_has_false in H as H'. rewrite H'.
  unfold Set_delete. rewrite filter_app, filter_cons, filter_nil.
  rewrite decide_False by (intros Hne; by apply Hne).
  fold (Set_delete n S). by rewrite Set_delete_absent, app_nil_r.
Qed.

(** Toggling a member twice moves it to the end of the insertion order and
    changes nothing else. *)
Lemma toggleFavorite_twice_Permutation n st :
  NoDup (favorites st) →
  favorites (toggleFavorite n (toggleFavorite n st)) ≡ₚ favorites st.
Proof.
  intros Hnd. rewrite !toggleFavorite_favorites.
  destruct (Set_has n (favorites st)) eqn:Hn.
  - assert (Set_has n (Set_delete n (favorites st)) = false) as ->.
    { apply Set_has_false. rewrite elem_of_Set_delete. tauto. }
    apply Set_has_true in Hn. unfold Set_add.
    assert (Set_has n (Set_delete n (favorites st)) = false) as ->.
    { apply Set_has_false. rewrite elem_of_Set_delete. tauto. }
    apply NoDup_Permutation.
    + apply NoDup_app. split_and!; [by apply NoDup_Set_delete| |apply NoDup_singleton].
      intros x Hx ->%list_elem_of_singleton.
      apply elem_of_Set_delete in Hx. tauto.
    + done.
    + intros x. rewrite elem_of_app, elem_of_Set_delete, list_elem_of_singleton.
      destruct (decide (x = n)) as [->|]; tauto.
  - assert (Set_has n (Set_add n (favorites st)) = true) as ->.
    { apply Set_has_true. rewrite elem_of_Set_add. tauto. }
    apply Set_has_false in Hn. by rewrite Set_delete_add.
Qed.

(** C4: two calls of [toggleFavorite] with the same name in succession give
    back a favorite set with the members it had, and make two writes to the
    storage, one per call and no more. *)
Theorem toggleFavorite_twice (n : jsstring) (st : State) :
  let st1 := toggleFavorite n st in
  let st2 := toggleFavorite n st1 in
  same_members (favorites st2) (favorites st) ∧
  writes (localStorage st2)
    = writes (localStorage st)
      ++ [(fontFavorites, JSON_stringify (favorites st1));
          (fontFavorites, JSON_stringify (favorites st2))] ∧
  length (writes (localStorage st2)) = length (writes (localStorage st)) + 2.
Proof.
  intros st1 st2.
  assert (writes (localStorage st2)
          = writes (localStorage st)
            ++ [(fontFavorites, JSON_stringify (favorites st1));
                (fontFavorites, JSON_stringify (favorites st2))]) as Hw.
  { unfold st2. rewrite toggleFavorite_localStorage. fold st2. simpl.
    unfold st1. rewrite toggleFavorite_localStorage. fold st1. simpl.
    by rewrite <- app_assoc. }
  split_and!; [|done|by rewrite Hw, length_app; simpl].
  intros x. unfold st2, st1. rewrite !toggleFavorite_favorites.
  destruct (Set_has n (favorites st)) eqn:Hn.
  - assert (Set_has n (Set_delete n (favorites st)) = false) as ->.
    { apply Set_has_false. rewrite elem_of_Set_delete. tauto. }
    apply Set_has_true in Hn.
    rewrite elem_of_Set_add, elem_of_Set_delete.
    destruct (decide (x = n)) as [->|]; tauto.
  - assert (Set_has n (Set_add n (favorites st)) = true) as ->.
    { apply Set_has_true. rewrite elem_of_Set_add. tauto. }
    apply Set_has_false in Hn.
    rewrite elem_of_Set_delete, elem_of_Set_add.
    split; [tauto|]. intros Hx. split; [|tauto]. by intros ->.
Qed.

(** C10: when the active filter is not ["favorites"], [toggleFavorite] does
    not render: the grid, the count, the catalog, the filter and the input
    are as before, the state differs from the one before only in the favorite
    set and the storage, and the storage only under the favorites key.  The
    button that was clicked is brought up to date by its own listener, which
    rewrites that one card of the grid. *)
Theorem toggleFavorite_frame (n : jsstring) (st : State) :
  currentFilter st ≠ Some (js "favorites") →
  let st' := toggleFavorite n st in
  grid st' = grid st ∧
  statsCount_textContent st' = statsCount_textContent st ∧
  st' = set_localStorage (localStorage st') (set_favorites (favorites st') st) ∧
  items (localStorage st')
    = <[fontFavorites := JSON_stringify (favorites st')]>
        (items (localStorage st)) ∧
  (∀ i card, grid st !! i = Some card →
     n = name (card_font card) →
     grid (favoriteBtn_click i st)
     = <[i := refresh_favoriteBtn (favorites st') card]> (grid st)).
Proof.
  intros Hf st'.
  assert (st' = saveFavorites
            (if Set_has n (favorites st)
             then set_favorites (Set_delete n (favorites st)) st
             else set_favorites (Set_add n (favorites st)) st)) as Hst'.
  { unfold st', toggleFavorite. rewrite decide_False; [done|].
    by destruct (Set_has n (favorites st)). }
  split_and!.
  - rewrite Hst'. by destruct (Set_has n (favorites st)).
  - rewrite Hst'. by destruct (Set_has n (favorites st)).
  - rewrite Hst'. by destruct (Set_has n (favorites st)).
  - unfold st'. by rewrite toggleFavorite_localStorage.
  - intros i card Hi ->. unfold favoriteBtn_click. rewrite Hi.
    rewrite bool_decide_false by done. fold st'. simpl.
    f_equal. rewrite Hst'. by destruct (Set_has _ (favorites st)).
Qed.

Lemma toggleFavorite_frame_witness :
  currentFilter sample_state ≠ Some (js "favorites") ∧
  grid (toggleFavorite (js "Retro") sample_state) = grid sample_state.
Proof.
  assert (currentFilter sample_state ≠ Some (js "favorites")) as H
    by (vm_compute; discriminate).
  split; [exact H|].
  exact (proj1 (toggleFavorite_frame (js "Retro") sample_state H)).
Defined.

(** [loadFavorites] leaves the state alone when the key is absent or holds
    the empty string. *)
Lemma loadFavorites_absent st :
  getItem fontFavorites (localStorage st) = None ∨
  getItem fontFavorites (localStorage st) = Some [] →
  loadFavorites st = Ok st.
Proof. unfold loadFavorites. by intros [-> | ->]. Qed.

(** C2 fails for a stored text that is not JSON: [JSON.parse] throws, nothing
    in [loadFavorites] catches it, and the start-up callback, which calls
    [loadFonts] after [loadFavorites], ends there too: the catalog is never
    fetched. *)
Theorem loadFavorites_unparsable (st : State) (stored : jsstring) (e : Error)
    (fetched : Error + list Font) :
  getItem fontFavorites (localStorage st) = Some stored →
  stored ≠ [] →
  JSON_parse stored = Throw e →
  loadFavorites st = Throw e ∧ startup fetched st = Throw e.
Proof.
  intros Hget Hne Hparse. unfold startup, loadFavorites. rewrite Hget.
  destruct stored as [|c r]; [done|]. simpl. by rewrite Hparse.
Qed.

Lemma loadFavorites_unparsable_witness :
  let st := initial {| items := {[ fontFavorites := js "{oops" ]}; writes := [] |}
                    [] in
  loadFavorites st = Throw SyntaxError ∧
  startup (inr [retro; neon]) st = Throw SyntaxError.
Proof.
  apply (loadFavorites_unparsable _ (js "{oops") SyntaxError).
  - apply lookup_singleton_eq.
  - discriminate.
  - reflexivity.
Defined.

(** Nor does every text that is JSON load: a number is not iterable. *)
Lemma loadFavorites_not_iterable :
  loadFavorites
    (initial {| items := {[ fontFavorites := js "5" ]}; writes := [] |} [])
  = Throw TypeError.
Proof.
  unfold loadFavorites, getItem. simpl items.
  rewrite lookup_singleton_eq. reflexivity.
Qed.

(** ** The favorite set stays a set *)

Lemma NoDup_Set_of_list l : NoDup (Set_of_list l).
Proof.
  unfold Set_of_list.
  enough (∀ acc, NoDup acc → NoDup (fold_left (λ S x, Set_add x S) l acc)) as G
    by apply G, NoDup_nil_2.
  induction l as [|x l IH]; intros acc Hacc; simpl; [done|].
  by apply IH, NoDup_Set_add.
Qed.

Lemma loadFavorites_NoDup st st' :
  NoDup (favorites st) → loadFavorites st = Ok st' → NoDup (favorites st').
Proof.
  intros Hnd. unfold loadFavorites.
  destruct (getItem fontFavorites (localStorage st)) as [stored|];
    [|by intros [= <-]].
  destruct (truthy stored); [|by intros [= <-]].
  destruct (JSON_parse stored) as [v| |]; simpl; [|done..].
  destruct v as [|b|lit|s|l|ms]; simpl; try done.
  - intros [= <-]. simpl. apply NoDup_nil_2.
  - intros [= <-]. simpl. apply NoDup_Set_of_list.
  - destruct (strings_of l); simpl; [|done].
    intros [= <-]. simpl. apply NoDup_Set_of_list.
Qed.

Lemma toggleFavorite_NoDup n st :
  NoDup (favorites st) → NoDup (favorites (toggleFavorite n st)).
Proof.
  intros Hnd. rewrite toggleFavorite_favorites.
  destruct (Set_has n (favorites st));
    [by apply NoDup_Set_delete | by apply NoDup_Set_add].
Qed.

(** ** The scenarios of the specification *)

Example scenario_serif :
  let st := renderFonts (Some (js "serif")) sample_state in
  map (λ card, name (card_font card)) (grid st) = [js "Retro"] ∧
  statsCount_textContent st = js "1".
Proof. by vm_compute. Qed.

Example scenario_favorites :
  let st := renderFonts (Some (js "favorites")) sample_state in
  map (λ card, name (card_font card)) (grid st) = [js "Neon"] ∧
  statsCount_textContent st = js "1".
Proof. by vm_compute. Qed.

Example scenario_clear :
  map logoDiv_textContent (grid (clearBtn_click sample_state))
  = [js "ABC"; js "ABC"] ∧
  map logoDiv_textContent (grid (renderFonts None sample_state))
  = [js "Ab"; js "Ab"].
Proof. by vm_compute. Qed.

Example scenario_filter_button :
  let st := filterBtn_click (Some (js "display")) sample_state in
  currentFilter st = Some (js "display") ∧
  map (λ card, name (card_font card)) (grid st) = [js "Neon"].
Proof. by vm_compute. Qed.

(** Under the ["favorites"] filter a click on the star of the one card
    removes the card; the stored text is then the empty array. *)
Example scenario_unfavorite :
  let st := favoriteBtn_click 0 (filterBtn_click (Some (js "favorites"))
                                                 sample_state) in
  grid st = [] ∧ statsCount_textContent st = js "0" ∧ favorites st = [] ∧
  getItem fontFavorites (localStorage st) = Some (js "[]").
Proof. by vm_compute. Qed.

(** ** The clipboard *)

Lemma removeChild_appended (n : Node) (l : list Node) :
  Forall (λ m, node_id m < node_id n) l →
  filter (λ m, node_id m ≠ node_id n) (l ++ [n]) = l.
Proof.
  intros H. rewrite filter_app, filter_cons, filter_nil.
  rewrite decide_False by (intros Hne; by apply Hne).
  rewrite app_nil_r. induction H as [|m l Hm _ IH]; [done|].
  rewrite filter_cons, decide_True by lia. by rewrite IH.
Qed.

(** The legacy path: the text area is in the body while the copy command
    runs, and gone when the function returns. *)
Lemma fallback_spec env text doc :
  fresh_ids doc →
  ∃ during : Document,
    body during = body doc ++ [offscreen_textarea (fresh_node doc) text] ∧
    (let '(textArea, doc) := fallback_setup text doc in
     fallback_copy env textArea doc)
    = (Ok match execCommand env (js "copy") during with
          | inr successful => successful
          | inl _ => false
          end,
       snd (let '(textArea, doc) := fallback_setup text doc in
            fallback_copy env textArea doc)) ∧
    body (snd (let '(textArea, doc) := fallback_setup text doc in
               fallback_copy env textArea doc)) = body doc.
Proof.
  intros Hfresh. exists (snd (fallback_setup text doc)).
  unfold fallback_setup, fallback_copy. cbv zeta. cbn [snd].
  split; [done|].
  destruct (execCommand env (js "copy") _) as [err|ok]; cbn [fst snd body log];
    (split; [done|]);
    by apply (removeChild_appended (offscreen_textarea (fresh_node doc) text)).
Qed.

(** C5: [copyToClipboard] always settles with a boolean.  When the Clipboard
    API is there and its write succeeds, the boolean is [true] and no node is
    added.  Otherwise a text area holding the text, fixed far off screen, is
    appended to the body; the boolean is what [execCommand("copy")] returned,
    or [false] when it threw; and in both cases the text area is removed
    again, so that the body ends as it began. *)
Theorem copyToClipboard_spec (env : Browser) (text : jsstring) (doc : Document) :
  fresh_ids doc →
  ∃ b : bool,
    fst (copyToClipboard env text doc) = Ok b ∧
    body (snd (copyToClipboard env text doc)) = body doc ∧
    if clipboard_succeeds env text then b = true
    else ∃ during : Document,
        body during = body doc ++ [offscreen_textarea (fresh_node doc) text] ∧
        b = match execCommand env (js "copy") during with
            | inr successful => successful
            | inl _ => false
            end.
Proof.
  intros Hfresh. unfold copyToClipboard, clipboard_succeeds.
  destruct (navigator_clipboard env && isSecureContext env) eqn:Hapi;
    [destruct (writeText env text) as [err|] eqn:Hw|].
  - rewrite bool_decide_false by done. cbn [andb].
    set (doc1 := log _ doc).
    destruct (fallback_spec env text doc1 Hfresh) as (during & Hdur & Hres & Hbody).
    rewrite Hres. cbn [fst snd]. eexists. split_and!; [done|exact Hbody|].
    by exists during.
  - rewrite bool_decide_true by done. by exists true.
  - destruct (fallback_spec env text doc Hfresh) as (during & Hdur & Hres & Hbody).
    cbn [andb]. rewrite Hres. cbn [fst snd]. eexists.
    split_and!; [done|exact Hbody|]. by exists during.
Qed.

Lemma copyToClipboard_spec_witness :
  fresh_ids sample_document ∧
  ∃ b : bool,
    fst (copyToClipboard old_browser (js "Neon") sample_document) = Ok b ∧
    body (snd (copyToClipboard old_browser (js "Neon") sample_document))
    = body sample_document ∧
    if clipboard_succeeds old_browser (js "Neon") then b = true
    else ∃ during : Document,
        body during = body sample_document
                      ++ [offscreen_textarea (fresh_node sample_document)
                                             (js "Neon")] ∧
        b = match execCommand old_browser (js "copy") during with
            | inr successful => successful
            | inl _ => false
            end.
Proof.
  assert (fresh_ids sample_document) as H.
  { unfold fresh_ids, sample_document. simpl. repeat constructor. }
  split; [exact H|].
  exact (copyToClipboard_spec old_browser (js "Neon") sample_document H).
Defined.

(** On that browser the copy command throws, and the outcome is [false]. *)
Lemma copyToClipboard_old_browser :
  copyToClipboard old_browser (js "Neon") sample_document
  = (Ok false,
     log (console_error (js "Fallback copy method failed") DOMException)
       {| body := body sample_document; fresh_node := 3;
          activeElement := Some 2; selected := Some 2; console := [] |}).
Proof. reflexivity. Qed.

(** ** The toast *)

(** C9, as the claim states it, fails: with calls at 0 ms and 2000 ms the
    toast is hidden at 3000 ms, by the timer of the first call, although the
    most recent call is only 1000 ms old. *)
Lemma showToast_first_timer_hides :
  let w := showToast_at 2000 (showToast_at 0 (quiet_toast [js "toast"] 0)) in
  toast_visible (toast_advance 2999 w) = true ∧
  toast_visible (toast_advance 3000 w) = false ∧
  3000 < 2000 + 3000.
Proof. vm_compute. split_and!; [done..|lia]. Qed.

Lemma show_in_classList_add l : js "show" ∈ classList_add (js "show") l.
Proof.
  unfold classList_add. case_bool_decide; [done|].
  apply elem_of_app. right. by left.
Qed.

Lemma show_not_in_classList_remove l :
  js "show" ∉ classList_remove (js "show") l.
Proof. unfold classList_remove. rewrite list_elem_of_filter. tauto. Qed.

Lemma classList_add_idem tok l :
  classList_add tok (classList_add tok l) = classList_add tok l.
Proof.
  unfold classList_add at 1. rewrite bool_decide_true; [done|].
  unfold classList_add. case_bool_decide; [done|].
  apply elem_of_app. right. by left.
Qed.

Ltac timers_step :=
  repeat first
    [ progress unfold next_due, take, clearTimeout
    | progress cbn [run_timers earliest setTimeout
                    pending next_id timer_due timer_id timer_callback
                    toast_timers toast_set_timers toast_now toast_set_now
                    toast_classList run_toast_callback length no_timers
                    quiet_toast]
    | rewrite filter_cons
    | rewrite filter_nil
    | rewrite decide_True by (cbn [timer_due timer_id]; lia)
    | rewrite decide_False by (cbn [timer_due timer_id]; lia) ].

(** C9, amended: [showToast] shows the toast and sets a timer that hides it
    3000 ms later; no call cancels a timer.  After one call the toast is
    visible until 3000 ms have passed.  After a second call made while the
    toast is still visible, it is hidden 3000 ms after the first call, not
    after the second. *)
Theorem showToast_timing (classes : list jsstring) (t0 t1 t2 T : nat) :
  t0 ≤ t1 → t1 ≤ t2 → t2 < t1 + toast_delay → t2 ≤ T →
  let w0 := quiet_toast classes t0 in
  toast_delay = 3000 ∧
  toast_visible w0 = false ∧
  (∀ T1, t1 ≤ T1 →
     toast_visible (toast_advance T1 (showToast_at t1 w0))
     = bool_decide (T1 < t1 + toast_delay)) ∧
  toast_visible (toast_advance T (showToast_at t2 (showToast_at t1 w0)))
  = bool_decide (T < t1 + toast_delay).
Proof.
  intros H01 H12 Hov H2T w0.
  assert (toast_visible w0 = false) as Hq.
  { apply bool_decide_eq_false, show_not_in_classList_remove. }
  assert (showToast_at t1 w0
          = {| toast_classList :=
                 classList_add (js "show") (classList_remove (js "show") classes);
               toast_timers :=
                 {| next_id := 2;
                    pending := [{| timer_id := 1; timer_due := t1 + toast_delay;
                                   timer_callback := hide_toast |}] |};
               toast_now := t1 |}) as H1.
  { unfold showToast_at, showToast, toast_advance, advance, w0. timers_step.
    by rewrite Nat.max_r by done. }
  split_and!; [done|done| |].
  - intros T1 HT1. rewrite H1. unfold toast_visible, toast_advance, advance.
    destruct (decide (T1 < t1 + toast_delay)) as [Hlt|Hge].
    + timers_step. rewrite (bool_decide_true (_ < _)) by done.
      apply bool_decide_eq_true, show_in_classList_add.
    + timers_step. rewrite (bool_decide_false (T1 < _)) by done.
      apply bool_decide_eq_false, show_not_in_classList_remove.
  - assert (showToast_at t2 (showToast_at t1 w0)
          = {| toast_classList :=
                 classList_add (js "show") (classList_remove (js "show") classes);
               toast_timers :=
                 {| next_id := 3;
                    pending := [{| timer_id := 1; timer_due := t1 + toast_delay;
                                   timer_callback := hide_toast |};
                                {| timer_id := 2; timer_due := t2 + toast_delay;
                                   timer_callback := hide_toast |}] |};
               toast_now := t2 |}) as H2.
    { rewrite H1. unfold showToast_at, showToast, toast_advance, advance.
      timers_step. rewrite classList_add_idem. by rewrite Nat.max_r by done. }
    rewrite H2. unfold toast_visible, toast_advance, advance.
    destruct (decide (T < t1 + toast_delay)) as [Hlt|Hge].
    + timers_step. rewrite (bool_decide_true (_ < _)) by done.
      apply bool_decide_eq_true, show_in_classList_add.
    + rewrite (bool_decide_false (T < _)) by done.
      apply bool_decide_eq_false.
      destruct (decide (t2 + toast_delay ≤ T)) as [Hle|Hgt].
      * timers_step.
        assert ((t2 + toast_delay <? t1 + toast_delay) = false) as ->
          by (apply Nat.ltb_ge; lia).
        timers_step. apply show_not_in_classList_remove.
      * timers_step. apply show_not_in_classList_remove.
Qed.

Lemma showToast_timing_witness :
  0 ≤ 0 ∧ 0 ≤ 2000 ∧ 2000 < 0 + toast_delay ∧ 2000 ≤ 3000 ∧
  toast_visible
    (toast_advance 3000
       (showToast_at 2000 (showToast_at 0 (quiet_toast [js "toast"] 0))))
  = bool_decide (3000 < 0 + toast_delay).
Proof.
  assert (0 ≤ 0) as H1 by lia.
  assert (0 ≤ 2000) as H2 by lia.
  assert (2000 < 0 + toast_delay) as H3 by (unfold toast_delay; lia).
  assert (2000 ≤ 3000) as H4 by lia.
  split_and!; [exact H1|exact H2|exact H3|exact H4|].
  exact (proj2 (proj2 (proj2
    (showToast_timing [js "toast"] 0 0 2000 3000 H1 H2 H3 H4)))).
Defined.

(** ** [debounce] *)

Section DebounceFacts.
Context {Args S : Type}.
Variable func : Args → S → S.
Variable wait : nat.

Ltac debounce_step :=
  repeat first
    [ progress unfold next_due, take, clearTimeout
    | progress cbn [run_timers earliest setTimeout run_later
                    pending next_id timer_due timer_id timer_callback
                    timeout d_timers d_set_timers d_now d_set_now d_target
                    invocations length fst snd]
    | rewrite filter_cons
    | rewrite filter_nil
    | rewrite decide_True by (cbn [timer_due timer_id]; lia)
    | rewrite decide_False by (cbn [timer_due timer_id]; lia) ].

Lemma first_call_armed (w : Debounced Args S) (t : nat) (a : Args) :
  pending (d_timers w) = [] → d_now w ≤ t →
  armed wait t a w (call_at func wait w (t, a)).
Proof.
  intros Hp Hnow. exists (next_id (d_timers w)).
  unfold call_at, executedFunction, d_advance, advance. cbn [fst snd].
  rewrite Hp. debounce_step. rewrite Nat.max_r by done.
  destruct (timeout w) as [stale|]; rewrite ?Hp; debounce_step; rewrite ?Hp;
    done.
Qed.

Lemma next_call_armed (w0 w : Debounced Args S) (t t' : nat) (a a' : Args) :
  armed wait t a w0 w → t ≤ t' → t' < t + wait →
  armed wait t' a' w0 (call_at func wait w (t', a')).
Proof.
  intros (id & Hto & Hp & Hnow & Htg & Hinv) Hle Hlt.
  exists (next_id (d_timers w)).
  unfold call_at, executedFunction, d_advance, advance. cbn [fst snd].
  rewrite Hp. debounce_step. rewrite Hp. debounce_step.
  rewrite Hto. debounce_step. rewrite Hp. debounce_step.
  rewrite Hnow, Nat.max_r by done. done.
Qed.

Lemma last_cons {A : Type} (l : list A) (x d : A) :
  List.last (x :: l) d = List.last l x.
Proof.
  revert x d. induction l as [|y l IH]; intros x d; [done|].
  change (List.last (x :: y :: l) d) with (List.last (y :: l) d).
  by rewrite (IH y d), (IH y x).
Qed.

Lemma burst_armed (rest : list (nat * Args)) (w0 w : Debounced Args S)
    (t : nat) (a : Args) :
  armed wait t a w0 w → burst wait t rest →
  armed wait (fst (List.last rest (t, a))) (snd (List.last rest (t, a))) w0
        (calls func wait rest w).
Proof.
  revert w t a. induction rest as [|[t' a'] rest IH]; intros w t a Hw Hb.
  - done.
  - destruct Hb as (Hle & Hlt & Hb).
    change (calls func wait ((t', a') :: rest) w)
      with (calls func wait rest (call_at func wait w (t', a'))).
    rewrite last_cons. apply IH; [|done].
    by apply (next_call_armed w0 w t t' a a').
Qed.

Lemma armed_advance (w0 w : Debounced Args S) (t T : nat) (a : Args) :
  armed wait t a w0 w → t ≤ T →
  invocations (d_advance func T w)
  = invocations w0 ++ (if decide (t + wait ≤ T) then [(t + wait, a)] else []) ∧
  d_target (d_advance func T w)
  = (if decide (t + wait ≤ T) then func a (d_target w0) else d_target w0) ∧
  (t + wait ≤ T → pending (d_timers (d_advance func T w)) = []).
Proof.
  intros (id & Hto & Hp & Hnow & Htg & Hinv) HT.
  unfold d_advance, advance. rewrite Hp.
  destruct (decide (t + wait ≤ T)) as [Hdue|Hnot].
  - debounce_step. rewrite Hp. debounce_step. rewrite Hto. debounce_step.
    rewrite Hnow, Htg, Hinv, Nat.max_r by lia. done.
  - debounce_step. rewrite Hp. debounce_step. rewrite Hinv, Htg, app_nil_r.
    split_and!; [done..|lia].
Qed.

End DebounceFacts.


(** Typing: however many input events arrive less than 300 ms apart, the
    grid is rendered once, 300 ms after the last of them. *)
Lemma typing_renders_once (st : State) (t1 : nat) (events : list (nat * unit))
    (T : nat) :
  burst updateLogos_wait t1 events →
  fst (List.last events (t1, ())) + 300 ≤ T →
  let w := d_advance updateLogos T
             (calls updateLogos updateLogos_wait ((t1, ()) :: events)
                    (debounce t1 st)) in
  invocations w = [(fst (List.last events (t1, ())) + 300, ())] ∧
  d_target w = renderFonts (currentFilter st) st.
Proof.
  intros Hb HT.
  change (calls updateLogos updateLogos_wait ((t1, ()) :: events)
                (debounce t1 st))
    with (calls updateLogos updateLogos_wait events
            (call_at updateLogos updateLogos_wait (debounce t1 st) (t1, ()))).
  pose proof (first_call_armed updateLogos updateLogos_wait (debounce t1 st)
                t1 () eq_refl (le_n _)) as H1.
  pose proof (burst_armed updateLogos updateLogos_wait events _ _ _ _ H1 Hb)
    as HN.
  destruct (armed_advance updateLogos updateLogos_wait _ _ _ T _ HN)
    as (Hi & Ht & _); [unfold updateLogos_wait; lia|].
  cbv zeta. rewrite Hi, Ht. unfold updateLogos_wait.
  rewrite !decide_True by done. destruct (List.last events (t1, ())) as [? []].
  done.
Qed.

(* ================================================================== *)
(** * Part II, continued: the rest of the script *)
(* ================================================================== *)

(** ** Renders and the page invariant *)

Lemma filteredFonts_ext flt st st' :
  fonts st' = fonts st → favorites st' = favorites st →
  filteredFonts flt st' = filteredFonts flt st.
Proof. intros Hf Hs. unfold filteredFonts. by rewrite Hf, Hs. Qed.

Lemma renderFonts_ext filter_arg st st' :
  fonts st' = fonts st → currentFilter st' = currentFilter st →
  favorites st' = favorites st → localStorage st' = localStorage st →
  input_value st' = input_value st →
  renderFonts filter_arg st' = renderFonts filter_arg st.
Proof.
  intros Hf Hc Hs Hl Hi. rewrite !renderFonts_unfold.
  rewrite (filteredFonts_ext _ st st') by done.
  unfold currentText, set_grid, set_statsCount. simpl.
  by rewrite Hf, Hc, Hs, Hl, Hi.
Qed.

Lemma renderFonts_in_sync st :
  in_sync (renderFonts (currentFilter st) st).
Proof.
  exists (currentText st). rewrite renderFonts_unfold. by split.
Qed.

(** X1: a render is idempotent and touches only the grid and the count: the
    catalog, the filter, the favorite set, the storage and the input value
    are those before the call, and rendering again with the same filter
    changes nothing. *)
Theorem renderFonts_idempotent (filter_arg : option jsstring) (st : State) :
  renderFonts filter_arg (renderFonts filter_arg st) = renderFonts filter_arg st ∧
  renderFonts filter_arg st
  = set_grid (grid (renderFonts filter_arg st))
      (set_statsCount (statsCount_textContent (renderFonts filter_arg st)) st).
Proof.
  destruct (renderFonts_frame filter_arg st) as (Hf & Hc & Hs & Hl & Hi).
  split.
  - rewrite (renderFonts_ext filter_arg st (renderFonts filter_arg st)); done.
  - by rewrite renderFonts_unfold.
Qed.

Lemma distinct_names_shown flt st :
  distinct_names st → NoDup (map name (filteredFonts flt st)).
Proof.
  unfold distinct_names, filteredFonts. intros H.
  destruct (decide (flt = js "favorites")); [|destruct (decide (flt = js "all"))];
    try done; (eapply sublist_NoDup; [exact H|]);
    apply fmap_sublist, sublist_filter.
Qed.

Lemma Set_has_toggled n m S :
  Set_has m (if Set_has n S then Set_delete n S else Set_add n S)
  = if decide (m = n) then negb (Set_has n S) else Set_has m S.
Proof.
  destruct (Set_has n S) eqn:Hn.
  - case_decide as Hm.
    + subst. apply Set_has_false. rewrite elem_of_Set_delete. tauto.
    + destruct (Set_has m S) eqn:Hm'.
      * apply Set_has_true. apply Set_has_true in Hm'.
        by rewrite elem_of_Set_delete.
      * apply Set_has_false. apply Set_has_false in Hm'.
        rewrite elem_of_Set_delete. tauto.
  - case_decide as Hm.
    + subst. apply Set_has_true. rewrite elem_of_Set_add. tauto.
    + destruct (Set_has m S) eqn:Hm'.
      * apply Set_has_true. apply Set_has_true in Hm'.
        rewrite elem_of_Set_add. tauto.
      * apply Set_has_false. apply Set_has_false in Hm'.
        rewrite elem_of_Set_add. tauto.
Qed.

Lemma refresh_make_card favs favs' text font :
  Set_has (name font) favs' = negb (Set_has (name font) favs) →
  refresh_favoriteBtn favs' (make_card favs text font)
  = make_card favs' text font.
Proof.
  intros H. unfold refresh_favoriteBtn, make_card. simpl. rewrite H.
  by destruct (Set_has (name font) favs).
Qed.

Lemma make_card_same_member favs favs' text font :
  Set_has (name font) favs' = Set_has (name font) favs →
  make_card favs' text font = make_card favs text font.
Proof. intros H. unfold make_card. by rewrite H. Qed.

Lemma toggleFavorite_no_render n st :
  currentFilter st ≠ Some (js "favorites") →
  toggleFavorite n st
  = saveFavorites
      (set_favorites (if Set_has n (favorites st)
                      then Set_delete n (favorites st)
                      else Set_add n (favorites st)) st).
Proof.
  intros Hf. unfold toggleFavorite. rewrite decide_False.
  - by destruct (Set_has n (favorites st)).
  - by destruct (Set_has n (favorites st)).
Qed.

Lemma toggleFavorite_render n st :
  currentFilter st = Some (js "favorites") →
  toggleFavorite n st
  = renderFonts (Some (js "favorites"))
      (saveFavorites
         (set_favorites (if Set_has n (favorites st)
                         then Set_delete n (favorites st)
                         else Set_add n (favorites st)) st)).
Proof.
  intros Hf. unfold toggleFavorite. rewrite decide_True.
  - destruct (Set_has n (favorites st));
      (etrans; [|by rewrite <- Hf]); reflexivity.
  - destruct (Set_has n (favorites st)); exact Hf.
Qed.

Lemma filteredFonts_not_favorites flt st favs :
  flt ≠ js "favorites" →
  filteredFonts flt (saveFavorites (set_favorites favs st)) = filteredFonts flt st.
Proof.
  intros H. unfold filteredFonts.
  by destruct (decide (flt = js "favorites")).
Qed.

Lemma favoriteBtn_click_in_place i st card text :
  distinct_names st →
  currentFilter st ≠ Some (js "favorites") →
  grid st = map (make_card (favorites st) text)
                (filteredFonts (default (js "all") (currentFilter st)) st) →
  grid st !! i = Some card →
  grid (favoriteBtn_click i st)
  = map (make_card (favorites (favoriteBtn_click i st)) text)
        (filteredFonts (default (js "all") (currentFilter st)) st).
Proof.
  intros Hd Hf Hg Hi. unfold favoriteBtn_click. rewrite Hi.
  rewrite bool_decide_false by done.
  rewrite toggleFavorite_no_render by done.
  set (n := name (card_font card)).
  set (favs' := if Set_has n (favorites st) then Set_delete n (favorites st)
                else Set_add n (favorites st)).
  cbn [grid favorites set_grid saveFavorites set_localStorage set_favorites].
  pose proof (distinct_names_shown (default (js "all") (currentFilter st)) st Hd)
    as Hnd.
  rewrite Hg in Hi |- *. clear Hg.
  set (shown := filteredFonts (default (js "all") (currentFilter st)) st) in *.
  clearbody shown.
  apply list_lookup_fmap_Some in Hi as (font & -> & Hfont).
  assert (n = name font) as Hn by done. clearbody n.
  change (map ?f shown) with (f <$> shown).
  apply list_eq. intros j. rewrite !list_lookup_fmap.
  destruct (decide (i = j)) as [<-|Hij].
  - rewrite list_lookup_insert_eq
      by (rewrite length_fmap; by eapply lookup_lt_Some).
    rewrite Hfont. simpl. f_equal. apply refresh_make_card.
    unfold favs'. rewrite Set_has_toggled, decide_True by done. by rewrite Hn.
  - rewrite list_lookup_insert_ne by done. rewrite list_lookup_fmap.
    destruct (shown !! j) as [font'|] eqn:Hj; [|done]. simpl. f_equal.
    symmetry. apply make_card_same_member.
    unfold favs'. rewrite Set_has_toggled, decide_False; [done|].
    intros Heq. apply Hij.
    eapply NoDup_lookup; [exact Hnd|..]; rewrite list_lookup_fmap.
    + by rewrite Hfont.
    + rewrite Hj. simpl. by rewrite Heq, Hn.
Qed.

Lemma favoriteBtn_click_in_sync i st :
  distinct_names st → in_sync st → in_sync (favoriteBtn_click i st).
Proof.
  intros Hd (text & Hg & Hc).
  destruct (grid st !! i) as [card|] eqn:Hi;
    [|unfold favoriteBtn_click; rewrite Hi; by exists text].
  destruct (decide (currentFilter st = Some (js "favorites"))) as [Hf|Hf].
  - unfold favoriteBtn_click. rewrite Hi, bool_decide_true by done.
    rewrite toggleFavorite_render by done.
    set (st1 := saveFavorites _).
    assert (currentFilter st1 = Some (js "favorites")) as <- by done.
    apply renderFonts_in_sync.
  - pose proof (favoriteBtn_click_in_place i st card text Hd Hf Hg Hi) as Hg'.
    exists text. revert Hg'. unfold favoriteBtn_click. rewrite Hi.
    rewrite bool_decide_false by done.
    rewrite toggleFavorite_no_render by done. intros Hg'.
    assert (default (js "all") (currentFilter st) ≠ js "favorites") as Hflt.
    { destruct (currentFilter st) as [f|]; simpl; [congruence|discriminate]. }
    cbn [currentFilter set_grid saveFavorites set_localStorage set_favorites
         statsCount_textContent] in *.
    split.
    + etrans; [exact Hg'|]. f_equal. unfold filteredFonts.
      by rewrite !(decide_False (P := _ = js "favorites")) by done.
    + rewrite Hc. do 2 f_equal. unfold filteredFonts.
      by rewrite !(decide_False (P := _ = js "favorites")) by done.
Qed.

(** X2: when the filter is not ["favorites"] and the grid is the render of
    the present state, a click on a star leaves the grid exactly as a full
    render of the new state would: the clicked card's button is switched and
    every other card is as it should be.  This needs the names of the catalog
    to be distinct. *)
Theorem favoriteBtn_click_as_render (i : nat) (st : State) :
  distinct_names st →
  currentFilter st ≠ Some (js "favorites") →
  grid st = grid (renderFonts (currentFilter st) st) →
  grid (favoriteBtn_click i st)
  = grid (renderFonts (currentFilter st) (favoriteBtn_click i st)).
Proof.
  intros Hd Hf Hg.
  destruct (grid st !! i) as [card|] eqn:Hi;
    [|unfold favoriteBtn_click; by rewrite Hi].
  rewrite renderFonts_unfold in Hg. cbn [grid set_grid] in Hg.
  rewrite (favoriteBtn_click_in_place i st card (currentText st) Hd Hf Hg Hi).
  rewrite renderFonts_unfold. cbn [grid set_grid].
  unfold favoriteBtn_click. rewrite Hi, bool_decide_false by done.
  rewrite toggleFavorite_no_render by done.
  assert (default (js "all") (currentFilter st) ≠ js "favorites") as Hflt.
  { destruct (currentFilter st) as [f|]; simpl; [congruence|discriminate]. }
  cbn [favorites set_grid saveFavorites set_localStorage set_favorites].
  f_equal. unfold filteredFonts.
  by rewrite !(decide_False (P := _ = js "favorites")) by done.
Qed.

Lemma favoriteBtn_click_as_render_witness :
  let st := renderFonts (Some (js "all")) sample_state in
  distinct_names st ∧ currentFilter st ≠ Some (js "favorites") ∧
  grid st = grid (renderFonts (currentFilter st) st) ∧
  grid (favoriteBtn_click 0 st)
  = grid (renderFonts (currentFilter st) (favoriteBtn_click 0 st)).
Proof.
  intros st.
  assert (distinct_names st) as H1.
  { apply (bool_decide_unpack _). by vm_compute. }
  assert (currentFilter st ≠ Some (js "favorites")) as H2
    by (vm_compute; discriminate).
  assert (grid st = grid (renderFonts (currentFilter st) st)) as H3
    by (vm_compute; reflexivity).
  split_and!; [exact H1|exact H2|exact H3|].
  exact (favoriteBtn_click_as_render 0 st H1 H2 H3).
Defined.

(** With two fonts of one name the other card keeps its old star. *)
Example favoriteBtn_click_stale_twin :
  let twins := set_fonts [retro; retro] sample_state in
  let st := favoriteBtn_click 0 (renderFonts (Some (js "all")) twins) in
  map favoriteBtn_innerHTML (grid st) = [star_filled; star_empty] ∧
  map favoriteBtn_innerHTML (grid (renderFonts (currentFilter st) st))
  = [star_filled; star_filled].
Proof. by vm_compute. Qed.

Lemma handle_frame st e :
  fonts (handle st e) = fonts st.
Proof.
  destruct e as [v| | |token|i]; simpl; try done.
  - unfold updateLogos. by destruct (renderFonts_frame (currentFilter st) st).
  - unfold clearBtn_click.
    by destruct (renderFonts_frame (currentFilter (set_input_value [] st))
                                   (set_input_value [] st)).
  - unfold filterBtn_click.
    by destruct (renderFonts_frame
                   (currentFilter (set_currentFilter token st))
                   (set_currentFilter token st)).
  - unfold favoriteBtn_click. destruct (grid st !! i) as [card|]; [|done].
    case_bool_decide as Hf.
    + rewrite toggleFavorite_render by done.
      by destruct (renderFonts_frame (Some (js "favorites"))
           (saveFavorites (set_favorites
              (if Set_has (name (card_font card)) (favorites st)
               then Set_delete (name (card_font card)) (favorites st)
               else Set_add (name (card_font card)) (favorites st)) st))).
    + by rewrite toggleFavorite_no_render by done.
Qed.

Lemma handle_in_sync st e :
  distinct_names st → in_sync st → in_sync (handle st e).
Proof.
  intros Hd Hs. destruct e as [v| | |token|i]; simpl.
  - destruct Hs as (text & Hg & Hc). by exists text.
  - apply renderFonts_in_sync.
  - unfold clearBtn_click.
    apply (renderFonts_in_sync (set_input_value [] st)).
  - unfold filterBtn_click.
    apply (renderFonts_in_sync (set_currentFilter token st)).
  - by apply favoriteBtn_click_in_sync.
Qed.

(** X3: whatever the user does once the grid is in step with the state
    (typing, the debounced render, the clear button, the filter buttons, the
    stars), the grid and the count stay those of a render of the present
    catalog, filter and favorite set, as long as the names of the catalog are
    distinct. *)
Theorem events_keep_in_sync (events : list Event) (st : State) :
  distinct_names st → in_sync st →
  in_sync (handle_all events st) ∧ fonts (handle_all events st) = fonts st.
Proof.
  revert st. induction events as [|e events IH]; intros st Hd Hs; [done|].
  change (handle_all (e :: events) st) with (handle_all events (handle st e)).
  destruct (IH (handle st e)) as [Hs' Hf'].
  - unfold distinct_names. by rewrite handle_frame.
  - by apply handle_in_sync.
  - split; [done|]. by rewrite Hf', handle_frame.
Qed.

Lemma events_keep_in_sync_witness :
  let st := renderFonts (Some (js "all")) sample_state in
  distinct_names st ∧ in_sync st ∧
  in_sync (handle_all [favoriteBtn_clicked 0; input_edited (js "Hi");
                       filterBtn_clicked (Some (js "favorites"));
                       favoriteBtn_clicked 1; updateLogos_runs] st).
Proof.
  intros st.
  assert (distinct_names st) as H1.
  { apply (bool_decide_unpack _). by vm_compute. }
  assert (in_sync st) as H2 by apply (renderFonts_in_sync sample_state).
  split_and!; [exact H1|exact H2|].
  exact (proj1 (events_keep_in_sync _ st H1 H2)).
Defined.

(** ** Favorites across events and sessions *)

Lemma handle_favorites st e :
  (NoDup (favorites st) → NoDup (favorites (handle st e))) ∧
  (persisted st → persisted (handle st e)).
Proof.
  destruct e as [v| | |token|i]; simpl.
  - done.
  - unfold updateLogos, persisted.
    by destruct (renderFonts_frame (currentFilter st) st) as (_ & _ & -> & -> & _).
  - unfold clearBtn_click, persisted.
    by destruct (renderFonts_frame (currentFilter (set_input_value [] st))
                   (set_input_value [] st)) as (_ & _ & -> & -> & _).
  - unfold filterBtn_click, persisted.
    by destruct (renderFonts_frame (currentFilter (set_currentFilter token st))
                   (set_currentFilter token st)) as (_ & _ & -> & -> & _).
  - unfold favoriteBtn_click. destruct (grid st !! i) as [card|]; [|done].
    assert (persisted (toggleFavorite (name (card_font card)) st)) as Hp.
    { unfold persisted. rewrite toggleFavorite_localStorage.
      unfold getItem, setItem. simpl. apply lookup_insert_eq. }
    split; [intros Hnd|intros _];
      case_bool_decide; try done; by apply toggleFavorite_NoDup.
Qed.

Lemma loadFavorites_persisted st text :
  NoDup (favorites st) → persisted st →
  loadFavorites (initial (localStorage st) text)
  = Ok (set_favorites (favorites st) (initial (localStorage st) text)).
Proof.
  intros Hnd Hp. unfold loadFavorites. cbn [localStorage initial].
  rewrite Hp, JSON_stringify_truthy, JSON_parse_stringify. simpl.
  rewrite strings_of_JStr. simpl. by rewrite Set_of_list_NoDup.
Qed.

(** X4: favorites survive the session.  Once the storage holds the favorite
    set, it keeps holding it through every event, and a page opened later on
    that storage loads exactly the favorite set the earlier page ended with. *)
Theorem favorites_survive_session (events : list Event) (st : State)
    (text : jsstring) :
  NoDup (favorites st) → persisted st →
  let st' := handle_all events st in
  persisted st' ∧ NoDup (favorites st') ∧
  loadFavorites (initial (localStorage st') text)
  = Ok (set_favorites (favorites st') (initial (localStorage st') text)).
Proof.
  intros Hnd Hp st'.
  assert (persisted st' ∧ NoDup (favorites st')) as [Hp' Hnd'].
  { unfold st'. clear st'. revert st Hnd Hp.
    induction events as [|e events IH]; intros st Hnd Hp; [done|].
    change (handle_all (e :: events) st) with (handle_all events (handle st e)).
    destruct (handle_favorites st e) as [H1 H2]. apply IH; auto. }
  split_and!; [done..|]. by apply loadFavorites_persisted.
Qed.

Lemma favorites_survive_session_witness :
  let st := toggleFavorite (js "Retro") sample_state in
  NoDup (favorites st) ∧ persisted st ∧
  loadFavorites
    (initial (localStorage (handle_all [favoriteBtn_clicked 0] st)) [])
  = Ok (set_favorites (favorites (handle_all [favoriteBtn_clicked 0] st))
          (initial (localStorage (handle_all [favoriteBtn_clicked 0] st)) [])).
Proof.
  intros st.
  assert (NoDup (favorites st)) as H1
    by (apply (bool_decide_unpack _); by vm_compute).
  assert (persisted st) as H2.
  { unfold persisted, st. rewrite toggleFavorite_localStorage.
    apply lookup_insert_eq. }
  split_and!; [exact H1|exact H2|].
  exact (proj2 (proj2
    (favorites_survive_session [favoriteBtn_clicked 0] st [] H1 H2))).
Defined.

Lemma Set_of_list_members l x : x ∈ Set_of_list l ↔ x ∈ l.
Proof.
  unfold Set_of_list.
  enough (∀ acc, x ∈ fold_left (λ S y, Set_add y S) l acc ↔ x ∈ acc ∨ x ∈ l) as G.
  { rewrite G. split; [intros [H|H]; [by apply elem_of_nil in H|done]|by right]. }
  induction l as [|y l IH]; intros acc; simpl.
  - split; [by left|]. intros [?|H]; [done|by apply elem_of_nil in H].
  - rewrite IH, elem_of_Set_add, elem_of_cons. tauto.
Qed.

Lemma loadFavorites_stringify (st : State) (names : list jsstring) :
  getItem fontFavorites (localStorage st) = Some (JSON_stringify names) →
  loadFavorites st = Ok (set_favorites (Set_of_list names) st).
Proof.
  intros Hget. unfold loadFavorites. rewrite Hget, JSON_stringify_truthy.
  rewrite JSON_parse_stringify. simpl. by rewrite strings_of_JStr.
Qed.



(** X6: what [loadFavorites] does when it returns: it has replaced the
    favorite set by one without duplicates (or left it, when the key is
    absent or empty) and touched nothing else, the storage least of all;
    loading again gives the same state. *)
Theorem loadFavorites_returns (st st' : State) :
  NoDup (favorites st) →
  loadFavorites st = Ok st' →
  st' = set_favorites (favorites st') st ∧
  NoDup (favorites st') ∧
  loadFavorites st' = Ok st'.
Proof.
  intros Hnd H. pose proof (loadFavorites_NoDup st st' Hnd H) as Hnd'.
  unfold loadFavorites in *.
  destruct (getItem fontFavorites (localStorage st)) as [stored|] eqn:Hget.
  - destruct (truthy stored) eqn:Ht.
    + destruct (JSON_parse stored) as [v| |] eqn:Hv; simpl in H; [|done..].
      destruct (new_Set v) as [S| |] eqn:HS; simpl in H; [|done..].
      injection H as <-. cbn [localStorage set_favorites favorites].
      rewrite Hget, Ht, Hv. simpl. rewrite HS. simpl. done.
    + injection H as <-. rewrite Hget, Ht. by rewrite set_favorites_id.
  - injection H as <-. rewrite Hget. by rewrite set_favorites_id.
Qed.

Lemma loadFavorites_returns_witness :
  let st := initial {| items := {[ fontFavorites := js "null" ]};
                       writes := [] |} [] in
  NoDup (favorites st) ∧ loadFavorites st = Ok st ∧
  st = set_favorites (favorites st) st.
Proof.
  intros st.
  assert (NoDup (favorites st)) as H1 by apply NoDup_nil_2.
  assert (loadFavorites st = Ok st) as H2.
  { unfold loadFavorites, getItem. simpl items.
    rewrite lookup_singleton_eq. reflexivity. }
  split_and!; [exact H1|exact H2|].
  exact (proj1 (loadFavorites_returns st st H1 H2)).
Defined.

(** X7: a stored text that is JSON but neither [null], a string nor an array
    (a number, a boolean, an object) makes [loadFavorites] throw a
    [TypeError], and start-up ends there: the catalog is never loaded. *)
Theorem loadFavorites_type_error (st : State) (stored : jsstring) (v : json)
    (fetched : Error + list Font) :
  getItem fontFavorites (localStorage st) = Some stored →
  JSON_parse stored = Ok v →
  not_iterable v →
  loadFavorites st = Throw TypeError ∧ startup fetched st = Throw TypeError.
Proof.
  intros Hget Hparse Hv. unfold startup, loadFavorites. rewrite Hget.
  destruct stored as [|c r]; [done|]. cbn [truthy]. rewrite Hparse.
  by destruct v.
Qed.

Lemma loadFavorites_type_error_witness :
  let st := initial {| items := {[ fontFavorites := js "{}" ]}; writes := [] |}
                    [] in
  loadFavorites st = Throw TypeError ∧
  startup (inr [retro; neon]) st = Throw TypeError.
Proof.
  apply (loadFavorites_type_error _ (js "{}") (JObj [])).
  - apply lookup_singleton_eq.
  - reflexivity.
  - exact I.
Defined.

(** ** Loading the catalog *)

(** X8: [loadFonts] renders the whole catalog whatever the active filter is:
    after a successful fetch the catalog is the fetched one, the grid has one
    card per font in catalog order, the count is the size of the catalog, and
    [currentFilter] is what it was.  After a failed fetch the state is
    untouched. *)
Theorem loadFonts_spec (catalog : list Font) (e : Error) (st : State) :
  let st' := loadFonts (inr catalog) st in
  fonts st' = catalog ∧
  map card_font (grid st') = catalog ∧
  statsCount_textContent st' = Number_toString (length catalog) ∧
  currentFilter st' = currentFilter st ∧
  favorites st' = favorites st ∧
  localStorage st' = localStorage st ∧
  loadFonts (inl e) st = st.
Proof.
  intros st'. unfold st', loadFonts. rewrite renderFonts_unfold.
  cbn [fonts grid statsCount_textContent currentFilter favorites localStorage
       set_grid set_statsCount set_fonts default].
  assert (filteredFonts (js "all") (set_fonts catalog st) = catalog) as ->
    by reflexivity.
  split_and!; try done.
  clear. induction catalog as [|x l IH]; [done|]. simpl. by f_equal.
Qed.

(** A filter chosen before the catalog arrives is not applied when it does. *)
Example loadFonts_ignores_filter :
  let st := loadFonts (inr [retro; neon])
              (filterBtn_click (Some (js "serif")) (initial {| items := ∅; writes := [] |} [])) in
  currentFilter st = Some (js "serif") ∧
  map (λ card, name (card_font card)) (grid st) = [js "Retro"; js "Neon"].
Proof. by vm_compute. Qed.

Lemma make_card_star favs text font :
  favoriteBtn_innerHTML (make_card favs text font) = star_filled
  ↔ name font ∈ favs.
Proof.
  unfold make_card. simpl. destruct (Set_has (name font) favs) eqn:H.
  - apply Set_has_true in H. done.
  - apply Set_has_false in H. split; [discriminate|done].
Qed.

(** X9: start-up loads the favorites before the catalog, so the first render
    already shows them: when the storage holds an array of names, start-up
    succeeds, every font of the fetched catalog gets a card, and a card's
    star is filled exactly when its font's name is in the stored array. *)
Theorem startup_shows_favorites (storage : Storage) (text : jsstring)
    (names : list jsstring) (catalog : list Font) :
  getItem fontFavorites storage = Some (JSON_stringify names) →
  ∃ st', startup (inr catalog) (initial storage text) = Ok st' ∧
         map card_font (grid st') = catalog ∧
         Forall (λ card, favoriteBtn_innerHTML card = star_filled
                         ↔ name (card_font card) ∈ names) (grid st').
Proof.
  intros Hget.
  pose proof (loadFavorites_stringify (initial storage text) names Hget)
    as Hload.
  set (st1 := set_favorites (Set_of_list names) (initial storage text)) in *.
  assert (∀ x, x ∈ favorites st1 ↔ x ∈ names) as Hmem
    by (intros x; apply Set_of_list_members).
  exists (loadFonts (inr catalog) st1). unfold startup. rewrite Hload.
  split_and!; [done| |].
  - unfold loadFonts. rewrite renderFonts_unfold. cbn [grid set_grid default].
    assert (filteredFonts (js "all") (set_fonts catalog st1) = catalog) as ->
      by reflexivity.
    clear. induction catalog as [|x l IH]; [done|]. simpl. by f_equal.
  - unfold loadFonts. rewrite renderFonts_unfold. cbn [grid set_grid].
    apply Forall_fmap, Forall_forall. intros font _. unfold compose.
    rewrite make_card_star. apply Hmem.
Qed.

Lemma startup_shows_favorites_witness :
  let storage := {| items := {[ fontFavorites := JSON_stringify [js "Neon"] ]};
                    writes := [] |} in
  getItem fontFavorites storage = Some (JSON_stringify [js "Neon"]) ∧
  ∃ st', startup (inr [retro; neon]) (initial storage []) = Ok st' ∧
         map card_font (grid st') = [retro; neon] ∧
         Forall (λ card, favoriteBtn_innerHTML card = star_filled
                         ↔ name (card_font card) ∈ [js "Neon"]) (grid st').
Proof.
  intros storage.
  assert (getItem fontFavorites storage = Some (JSON_stringify [js "Neon"]))
    as H by apply lookup_singleton_eq.
  split; [exact H|].
  exact (startup_shows_favorites storage [] [js "Neon"] [retro; neon] H).
Defined.

(** ** The filter buttons and the clear button *)

Lemma active_after_add l : js "active" ∈ classList_add (js "active") l.
Proof.
  unfold classList_add. case_bool_decide; [done|].
  apply elem_of_app. right. by left.
Qed.

Lemma classList_add_other tok c l :
  c ≠ tok → c ∈ classList_add tok l ↔ c ∈ l.
Proof.
  intros Hc. unfold classList_add. case_bool_decide; [done|].
  rewrite elem_of_app, list_elem_of_singleton. tauto.
Qed.

Lemma classList_remove_elem tok c l :
  c ∈ classList_remove tok l ↔ c ≠ tok ∧ c ∈ l.
Proof. unfold classList_remove. by rewrite list_elem_of_filter. Qed.

(** X10: after a click on the [k]-th filter button exactly that button is
    active; every button keeps its token and its other classes;
    [currentFilter] is the token of the clicked button, and the grid is
    rendered for it. *)
Theorem filterBtns_click_spec (k : nat) (btns : list FilterBtn) (st : State)
    (btn : FilterBtn) :
  btns !! k = Some btn →
  let btns' := fst (filterBtns_click k btns st) in
  let st' := snd (filterBtns_click k btns st) in
  (∀ j b, btns' !! j = Some b → (is_active b ↔ j = k)) ∧
  map dataset_filter btns' = map dataset_filter btns ∧
  (∀ j b b' c, btns !! j = Some b → btns' !! j = Some b' → c ≠ js "active" →
     (c ∈ filterBtn_classList b' ↔ c ∈ filterBtn_classList b)) ∧
  currentFilter st' = dataset_filter btn ∧
  in_sync st'.
Proof.
  intros Hk btns' st'. unfold btns', st', filterBtns_click. rewrite Hk.
  cbn [fst snd]. split_and!.
  - intros j b Hb. rewrite list_lookup_alter in Hb.
    change (map filterBtn_remove_active btns)
      with (filterBtn_remove_active <$> btns) in Hb.
    rewrite !list_lookup_fmap in Hb. case_decide as Hjk.
    + subst j. rewrite Hk in Hb. simpl in Hb. injection Hb as <-.
      split; [done|]. intros _. apply active_after_add.
    + destruct (btns !! j) as [b0|]; [|done]. simpl in Hb. injection Hb as <-.
      unfold is_active. simpl. rewrite classList_remove_elem.
      split; [tauto|]. intros ->. done.
  - apply list_eq. intros j.
    change (map ?f ?l) with (f <$> l). rewrite !list_lookup_fmap.
    rewrite list_lookup_alter, !list_lookup_fmap. case_decide as Hjk.
    + subst j. by destruct (btns !! k).
    + by destruct (btns !! j).
  - intros j b b' c Hb Hb' Hc. rewrite list_lookup_alter in Hb'.
    change (map filterBtn_remove_active btns)
      with (filterBtn_remove_active <$> btns) in Hb'.
    rewrite !list_lookup_fmap in Hb'. case_decide as Hjk.
    + subst j. rewrite Hk in Hb, Hb'. simpl in Hb'.
      injection Hb as <-. injection Hb' as <-. simpl.
      rewrite classList_add_other by done. rewrite classList_remove_elem. tauto.
    + rewrite Hb in Hb'. simpl in Hb'. injection Hb' as <-. simpl.
      rewrite classList_remove_elem. tauto.
  - unfold filterBtn_click.
    by destruct (renderFonts_frame
                   (currentFilter (set_currentFilter (dataset_filter btn) st))
                   (set_currentFilter (dataset_filter btn) st)) as (_ & -> & _).
  - unfold filterBtn_click.
    apply (renderFonts_in_sync (set_currentFilter (dataset_filter btn) st)).
Qed.

Lemma filterBtns_click_spec_witness :
  let btns := [ {| dataset_filter := Some (js "all");
                   filterBtn_classList := [js "filter-btn"; js "active"] |};
                {| dataset_filter := Some (js "serif");
                   filterBtn_classList := [js "filter-btn"] |} ] in
  btns !! 1 = Some {| dataset_filter := Some (js "serif");
                      filterBtn_classList := [js "filter-btn"] |} ∧
  currentFilter (snd (filterBtns_click 1 btns sample_state))
  = Some (js "serif").
Proof.
  intros btns.
  assert (btns !! 1 = Some {| dataset_filter := Some (js "serif");
                              filterBtn_classList := [js "filter-btn"] |})
    as H by reflexivity.
  split; [exact H|].
  exact (proj1 (proj2 (proj2 (proj2
    (filterBtns_click_spec 1 btns sample_state _ H))))).
Defined.

(** X11: of two filter clicks in a row only the second counts; in
    particular a second click on the same filter changes nothing. *)
Theorem filterBtn_click_last_wins (a b : option jsstring) (st : State) :
  filterBtn_click b (filterBtn_click a st) = filterBtn_click b st.
Proof.
  unfold filterBtn_click.
  destruct (renderFonts_frame (currentFilter (set_currentFilter a st))
              (set_currentFilter a st)) as (Hf & Hc & Hs & Hl & Hi).
  cbn [currentFilter set_currentFilter].
  apply renderFonts_ext; cbn [fonts currentFilter favorites localStorage
                              input_value set_currentFilter]; done.
Qed.

(** X12: after the clear button every card shows the placeholder, whatever was
    typed before.  In [script.js] the input is left empty and the
    placeholder is ["ABC"]; in the other copy the input itself is set to the
    placeholder ["I<ARIM"]. *)
Theorem clearBtn_click_spec (st : State) (st0 : Part000.State) :
  (input_value (clearBtn_click st) = [] ∧
   Forall (λ card, logoDiv_textContent card = js "ABC")
          (grid (clearBtn_click st)) ∧
   in_sync (clearBtn_click st)) ∧
  (Part000.input_value (part000_clearBtn_click st0) = js "I<ARIM" ∧
   Forall (λ card, Part000.logoDiv_textContent card = js "I<ARIM")
          (Part000.grid (part000_clearBtn_click st0))).
Proof.
  split_and!.
  - unfold clearBtn_click.
    by destruct (renderFonts_frame (currentFilter (set_input_value [] st))
                   (set_input_value [] st)) as (_ & _ & _ & _ & ->).
  - unfold clearBtn_click. rewrite renderFonts_unfold. cbn [grid set_grid].
    apply Forall_fmap, Forall_true. done.
  - unfold clearBtn_click. apply (renderFonts_in_sync (set_input_value [] st)).
  - done.
  - unfold part000_clearBtn_click. rewrite part000_grid.
    apply Forall_fmap, Forall_true. done.
Qed.

(** ** Stars under the ["favorites"] filter *)

Lemma filter_favorites_delete n (favs : list jsstring) (l : list Font) :
  filter (λ f, Set_has (name f) (Set_delete n favs) = true) l
  = filter (λ f, name f ≠ n)
      (filter (λ f, Set_has (name f) favs = true) l).
Proof.
  induction l as [|x l IH]; [done|]. rewrite !filter_cons.
  destruct (decide (Set_has (name x) favs = true)) as [Hx|Hx].
  - rewrite filter_cons. destruct (decide (name x ≠ n)) as [Hn|Hn].
    + rewrite decide_True; [by rewrite IH|].
      apply Set_has_true. apply Set_has_true in Hx.
      by rewrite elem_of_Set_delete.
    + rewrite decide_False; [done|]. rewrite Set_has_true, elem_of_Set_delete.
      tauto.
  - rewrite decide_False; [done|]. rewrite Set_has_true in *.
    rewrite elem_of_Set_delete. tauto.
Qed.

Lemma card_font_make_card favs text (l : list Font) :
  map card_font (map (make_card favs text) l) = l.
Proof. induction l as [|x l IH]; [done|]. simpl. by f_equal. Qed.

(** X13: under the ["favorites"] filter, with the grid in step with the
    state, a click on the star of a card takes the font out of the favorite
    set and re-renders: the cards of that name are gone, the other cards
    stay, in their order, and the count is the number of cards left. *)
Theorem favoriteBtn_click_unfavorites (i : nat) (st : State) (card : Card) :
  currentFilter st = Some (js "favorites") →
  in_sync st →
  grid st !! i = Some card →
  let st' := favoriteBtn_click i st in
  (name (card_font card) ∉ favorites st') ∧
  map card_font (grid st')
  = filter (λ f, name f ≠ name (card_font card)) (map card_font (grid st)) ∧
  statsCount_textContent st' = Number_toString (length (grid st')) ∧
  (∀ m, m ≠ name (card_font card) → (m ∈ favorites st' ↔ m ∈ favorites st)).
Proof.
  intros Hf (text & Hg & _) Hi st'.
  assert (map card_font (grid st)
          = filter (λ f, Set_has (name f) (favorites st) = true) (fonts st))
    as Hshown.
  { rewrite Hg, Hf, card_font_make_card. cbn [default]. unfold filteredFonts.
    by rewrite decide_True by done. }
  assert (Set_has (name (card_font card)) (favorites st) = true) as Hmem.
  { assert (card_font card ∈ map card_font (grid st)) as Hin.
    { apply list_elem_of_lookup. exists i.
      change (map ?f ?l) with (f <$> l). by rewrite list_lookup_fmap, Hi. }
    rewrite Hshown in Hin. by apply list_elem_of_filter in Hin as [? _]. }
  assert (st' = renderFonts (Some (js "favorites"))
                  (saveFavorites
                     (set_favorites
                        (Set_delete (name (card_font card)) (favorites st)) st)))
    as Hst'.
  { unfold st', favoriteBtn_click. rewrite Hi, bool_decide_true by done.
    rewrite toggleFavorite_render by done. by rewrite Hmem. }
  rewrite Hst', renderFonts_unfold.
  cbn [grid statsCount_textContent favorites set_grid set_statsCount
       saveFavorites set_localStorage set_favorites default].
  split_and!.
  - rewrite elem_of_Set_delete. tauto.
  - rewrite Hshown, card_font_make_card. unfold filteredFonts.
    rewrite decide_True by done.
    cbn [fonts favorites set_localStorage set_favorites saveFavorites].
    by rewrite <- filter_favorites_delete.
  - by rewrite length_map.
  - intros m Hm. rewrite elem_of_Set_delete. tauto.
Qed.

Lemma favoriteBtn_click_unfavorites_witness :
  let st := filterBtn_click (Some (js "favorites")) sample_state in
  currentFilter st = Some (js "favorites") ∧ in_sync st ∧
  grid st !! 0 = Some (make_card [js "Neon"] (js "Ab") neon) ∧
  map card_font (grid (favoriteBtn_click 0 st))
  = filter (λ f, name f ≠ js "Neon") (map card_font (grid st)).
Proof.
  intros st.
  assert (currentFilter st = Some (js "favorites")) as H1 by reflexivity.
  assert (in_sync st) as H2
    by apply (renderFonts_in_sync
                (set_currentFilter (Some (js "favorites")) sample_state)).
  assert (grid st !! 0 = Some (make_card [js "Neon"] (js "Ab") neon)) as H3
    by (vm_compute; reflexivity).
  split_and!; [exact H1|exact H2|exact H3|].
  exact (proj1 (proj2 (favoriteBtn_click_unfavorites 0 st _ H1 H2 H3))).
Defined.

(** ** The other copy of the script *)

(** X14: in the other copy of the script [renderFonts] knows only ["all"] and
    categories: the grid is, in catalog order, one card per font (for
    ["all"] or no argument) or per font of the category named by the filter,
    ["favorites"] being a category name like any other; every card shows the
    sample text, and the count is the number of cards. *)
Theorem part000_renderFonts_spec (filter_arg : option jsstring)
    (st : Part000.State) :
  let flt := default (js "all") filter_arg in
  let st' := Part000.renderFonts filter_arg st in
  map Part000.card_font (Part000.grid st')
  = List.filter (λ f, bool_decide (flt = js "all")
                      || bool_decide (category f = flt)) (Part000.fonts st) ∧
  Part000.statsCount_textContent st'
  = Number_toString (length (Part000.grid st')) ∧
  Part000.fonts st' = Part000.fonts st ∧
  Part000.currentFilter st' = Part000.currentFilter st ∧
  Part000.input_value st' = Part000.input_value st.
Proof.
  intros flt st'. unfold st'. rewrite part000_grid. fold flt.
  split_and!; try done.
  - unfold Part000.filteredFonts.
    generalize (Part000.fonts st). intros l. case_decide as Hall.
    + rewrite bool_decide_true by done.
      induction l as [|x l IH]; [done|]. simpl. by f_equal.
    + rewrite bool_decide_false by done.
      induction l as [|x l IH]; [done|]. rewrite filter_cons. simpl.
      case_decide as Hc.
      * rewrite bool_decide_true by done. simpl. by f_equal.
      * by rewrite bool_decide_false by done.
  - unfold Part000.renderFonts. cbn [Part000.statsCount_textContent].
    by rewrite length_map.
Qed.

(** ** [debounce] over any sequence of calls *)

Section DebounceAnyCalls.
Context {Args S : Type}.
Variable func : Args → S → S.
Variable wait : nat.

Ltac debounce_step :=
  repeat first
    [ progress unfold next_due, take, clearTimeout
    | progress cbn [run_timers earliest setTimeout run_later
                    pending next_id timer_due timer_id timer_callback
                    timeout d_timers d_set_timers d_now d_set_now d_target
                    invocations length fst snd]
    | rewrite filter_cons
    | rewrite filter_nil
    | rewrite decide_True by (cbn [timer_due timer_id]; lia)
    | rewrite decide_False by (cbn [timer_due timer_id]; lia) ].



End DebounceAnyCalls.


(** ** Typing *)

Section Typing.

Ltac debounce_step :=
  repeat first
    [ progress unfold next_due, take, clearTimeout
    | progress cbn [run_timers earliest setTimeout run_later
                    pending next_id timer_due timer_id timer_callback
                    timeout d_timers d_set_timers d_now d_set_now d_target
                    invocations length fst snd]
    | rewrite filter_cons
    | rewrite filter_nil
    | rewrite decide_True by (cbn [timer_due timer_id]; lia)
    | rewrite decide_False by (cbn [timer_due timer_id]; lia) ].

Lemma input_event_first (st : State) (t0 t : nat) (v : jsstring) :
  t0 ≤ t →
  armed updateLogos_wait t ()
    {| timeout := None; d_timers := no_timers; d_now := t;
       d_target := set_input_value v st; invocations := [] |}
    (input_event (debounce t0 st) (t, v)).
Proof.
  intros Hle. exists 1.
  unfold input_event, debouncedUpdateLogos, executedFunction, d_advance,
    advance, debounce. cbn [fst snd]. debounce_step.
  by rewrite Nat.max_r by done.
Qed.

Lemma input_event_next (w0 w : Debounced unit State) (t t' : nat)
    (v' : jsstring) :
  armed updateLogos_wait t () w0 w → t ≤ t' → t' < t + updateLogos_wait →
  armed updateLogos_wait t' ()
    {| timeout := timeout w0; d_timers := d_timers w0; d_now := d_now w0;
       d_target := set_input_value v' (d_target w0);
       invocations := invocations w0 |}
    (input_event w (t', v')).
Proof.
  intros (id & Hto & Hp & Hnow & Htg & Hinv) Hle Hlt.
  exists (next_id (d_timers w)).
  unfold input_event, debouncedUpdateLogos, executedFunction, d_advance,
    advance. cbn [fst snd].
  rewrite Hp. debounce_step. rewrite Hp. debounce_step.
  rewrite Hto. debounce_step. rewrite Hp. debounce_step.
  rewrite Hnow, Htg, Hinv, Nat.max_r by done. done.
Qed.

Lemma typing_armed (rest : list (nat * jsstring)) (st : State)
    (w : Debounced unit State) (t : nat) (v : jsstring) :
  armed updateLogos_wait t ()
    {| timeout := None; d_timers := no_timers; d_now := t;
       d_target := set_input_value v st; invocations := [] |} w →
  burst updateLogos_wait t rest →
  armed updateLogos_wait (fst (List.last rest (t, v))) ()
    {| timeout := None; d_timers := no_timers; d_now := t;
       d_target := set_input_value (snd (List.last rest (t, v))) st;
       invocations := [] |}
    (typing rest w).
Proof.
  revert w t v. induction rest as [|[t' v'] rest IH]; intros w t v Hw Hb.
  - done.
  - destruct Hb as (Hle & Hlt & Hb). rewrite last_cons.
    change (typing ((t', v') :: rest) w)
      with (typing rest (input_event w (t', v'))).
    pose proof (input_event_next _ w t t' v' Hw Hle Hlt) as Hw'.
    destruct (IH (input_event w (t', v')) t' v') as (id & H1 & H2 & H3 & H4 & H5);
      [|done|by exists id].
    destruct Hw' as (id' & G1 & G2 & G3 & G4 & G5). by exists id'.
Qed.

(** X16: while the user types, each keystroke less than 300 ms after the one
    before, the grid is left as it is; 300 ms after the last keystroke it is
    rendered once, with the filter of that moment and the text the input
    then holds. *)
Theorem typing_renders_last_text (st : State) (t0 t1 : nat) (v1 : jsstring)
    (rest : list (nat * jsstring)) (T : nat) :
  t0 ≤ t1 →
  burst updateLogos_wait t1 rest →
  let tN := fst (List.last rest (t1, v1)) in
  let vN := snd (List.last rest (t1, v1)) in
  tN ≤ T →
  let w := d_advance updateLogos T
             (typing ((t1, v1) :: rest) (debounce t0 st)) in
  (T < tN + 300 →
     invocations w = [] ∧ d_target w = set_input_value vN st) ∧
  (tN + 300 ≤ T →
     invocations w = [(tN + 300, ())] ∧
     d_target w = renderFonts (currentFilter st) (set_input_value vN st) ∧
     Forall (λ card, logoDiv_textContent card
                     = if whitespace_only vN then js "ABC" else trim vN)
            (grid (d_target w))).
Proof.
  intros Hle Hb tN vN HT w.
  change (typing ((t1, v1) :: rest) (debounce t0 st))
    with (typing rest (input_event (debounce t0 st) (t1, v1))) in w.
  pose proof (typing_armed rest st _ t1 v1
                (input_event_first st t0 t1 v1 Hle) Hb) as Harmed.
  destruct (armed_advance updateLogos updateLogos_wait _ _ _ T _ Harmed HT)
    as (Hi & Ht & _). fold w in Hi, Ht. fold tN in Hi, Ht. fold vN in Hi, Ht.
  cbn [invocations d_target app] in Hi, Ht.
  change updateLogos_wait with 300 in Hi, Ht.
  split.
  - intros Hlt. by rewrite Hi, Ht, !decide_False by lia.
  - intros Hge. rewrite Hi, Ht, !decide_True by lia.
    split_and!; [done..|].
    unfold updateLogos. rewrite renderFonts_unfold. cbn [grid set_grid].
    apply Forall_fmap, Forall_forall. intros font _. unfold compose.
    cbn [logoDiv_textContent make_card].
    by rewrite currentText_cases.
Qed.
End Typing.

Lemma typing_renders_last_text_witness :
  0 ≤ 0 ∧ burst updateLogos_wait 0 [(120, js "Hi"); (250, js "Hi!")] ∧
  250 ≤ 600 ∧
  d_target (d_advance updateLogos 600
              (typing [(0, js "H"); (120, js "Hi"); (250, js "Hi!")]
                      (debounce 0 sample_state)))
  = renderFonts (currentFilter sample_state)
      (set_input_value (js "Hi!") sample_state).
Proof.
  assert (0 ≤ 0) as H1 by lia.
  assert (burst updateLogos_wait 0 [(120, js "Hi"); (250, js "Hi!")]) as H2
    by (unfold updateLogos_wait; simpl; lia).
  assert (250 ≤ 600) as H3 by lia.
  split_and!; [exact H1|exact H2|exact H3|].
  refine (proj1 (proj2 (proj2
    (typing_renders_last_text sample_state 0 0 (js "H")
       [(120, js "Hi"); (250, js "Hi!")] 600 H1 H2 H3) _))).
  simpl. lia.
Defined.

(** ** The toast after any history *)

Lemma earliest_elem {C : Type} (l : list (Timer C)) (tm : Timer C) :
  earliest l = Some tm → tm ∈ l.
Proof.
  revert tm. induction l as [|x l IH]; intros tm H; [done|].
  simpl in H. destruct (earliest l) as [tm'|].
  - destruct (timer_due tm' <? timer_due x); injection H as <-.
    + right. by apply IH.
    + by left.
  - injection H as <-. by left.
Qed.

Lemma earliest_None {C : Type} (l : list (Timer C)) :
  earliest l = None → l = [].
Proof.
  destruct l as [|x l]; [done|]. simpl.
  destruct (earliest l) as [tm'|]; [|done].
  by destruct (timer_due tm' <? timer_due x).
Qed.

Lemma classList_remove_idem tok l :
  classList_remove tok (classList_remove tok l) = classList_remove tok l.
Proof.
  unfold classList_remove. rewrite list_filter_filter.
  apply list_filter_iff. tauto.
Qed.

Local Abbreviation toast_run :=
  (run_timers toast_timers toast_set_timers toast_now toast_set_now
              run_toast_callback).

Lemma toast_run_timers (n : nat) (T : nat) (w : Toast) :
  length (pending (toast_timers w)) ≤ n →
  Forall (λ tm, T < timer_due tm) (pending (toast_timers (toast_run n T w))) ∧
  toast_classList (toast_run n T w)
  = (if decide (Forall (λ tm, T < timer_due tm) (pending (toast_timers w)))
     then toast_classList w
     else classList_remove (js "show") (toast_classList w)) ∧
  (∀ tm, tm ∈ pending (toast_timers (toast_run n T w)) →
         tm ∈ pending (toast_timers w)).
Proof.
  revert w. induction n as [|n IH]; intros w Hn.
  - destruct (pending (toast_timers w)) as [|? ?] eqn:Hp; [|simpl in Hn; lia].
    cbn [run_timers]. rewrite Hp. rewrite decide_True by constructor.
    by split_and!.
  - cbn [run_timers]. unfold next_due.
    destruct (earliest _) as [tm|] eqn:He.
    + apply earliest_elem in He as Hin.
      apply list_elem_of_filter in Hin as [Hdue Hin].
      set (w1 := run_toast_callback _ _).
      assert (length (pending (toast_timers w1)) ≤ n) as Hlen.
      { unfold w1, take, clearTimeout. cbn.
        pose proof (length_filter_lt (λ tm0, timer_id tm0 ≠ timer_id tm)
                      (pending (toast_timers w)) tm Hin) as Hlt.
        cbn in Hlt. specialize (Hlt ltac:(tauto)). lia. }
      destruct (IH w1 Hlen) as (Hall & Hcl & Hsub). split_and!.
      * exact Hall.
      * rewrite Hcl.
        rewrite (decide_False (P := Forall _ (pending (toast_timers w)))).
        -- destruct (decide _); [reflexivity|].
           unfold w1. cbn [toast_classList run_toast_callback].
           apply classList_remove_idem.
        -- intros Hall'. rewrite Forall_forall in Hall'.
           specialize (Hall' tm Hin). lia.
      * intros tm' Htm'. apply Hsub in Htm'. unfold w1, take, clearTimeout in Htm'.
        cbn in Htm'. by apply list_elem_of_filter in Htm' as [_ ?].
    + apply earliest_None in He.
      assert (Forall (λ tm, T < timer_due tm) (pending (toast_timers w))) as Hall.
      { apply Forall_forall. intros tm Hin.
        destruct (decide (timer_due tm ≤ T)) as [Hdue|]; [|lia].
        assert (tm ∈ filter (λ tm, timer_due tm ≤ T) (pending (toast_timers w)))
          as Hf by (apply list_elem_of_filter; done).
        rewrite He in Hf. by apply elem_of_nil in Hf. }
      rewrite decide_True by done. by split_and!.
Qed.

Lemma toast_advance_visible (w : Toast) (T : nat) :
  toast_visible (toast_advance T w)
  = toast_visible w
    && bool_decide (Forall (λ tm, T < timer_due tm) (pending (toast_timers w))) ∧
  Forall (λ tm, T < timer_due tm) (pending (toast_timers (toast_advance T w))) ∧
  (∀ tm, tm ∈ pending (toast_timers (toast_advance T w)) →
         tm ∈ pending (toast_timers w)).
Proof.
  destruct (toast_run_timers (length (pending (toast_timers w))) T w (le_n _))
    as (Hall & Hcl & Hsub).
  unfold toast_advance, advance, toast_visible. cbn [toast_classList toast_timers toast_set_now].
  split_and!; [|done..].
  rewrite Hcl. case_decide as Hd.
  - by rewrite (bool_decide_true (Forall _ _)), andb_true_r by done.
  - rewrite (bool_decide_false (Forall _ _)), andb_false_r by done.
    apply bool_decide_eq_false, show_not_in_classList_remove.
Qed.

(** X17: the toast after any history.  Right after [showToast] the toast is
    visible, and it stays visible until the first hide timer still pending
    comes due: the one of this call, 3000 ms later, or an earlier one left by
    a call before.  So it is never visible 3000 ms after the latest call, and
    it may be hidden sooner. *)
Theorem showToast_after_any_history (w : Toast) (t T : nat) :
  toast_now w ≤ t → t ≤ T →
  let w1 := showToast_at t w in
  toast_visible w1 = true ∧
  toast_visible (toast_advance T w1)
  = bool_decide (T < t + 3000)
    && bool_decide (Forall (λ tm, T < timer_due tm)
                           (pending (toast_timers (toast_advance t w)))) ∧
  (t + 3000 ≤ T → toast_visible (toast_advance T w1) = false).
Proof.
  intros Hnow HT w1.
  assert (toast_visible w1 = true) as Hv.
  { unfold w1, showToast_at, showToast, toast_visible. cbn.
    apply bool_decide_eq_true, show_in_classList_add. }
  assert (toast_now (toast_advance t w) = t) as Hclock.
  { unfold toast_advance, advance. cbn. 
    enough (∀ n w, toast_now w ≤ t → toast_now (toast_run n t w) ≤ t) as G.
    { specialize (G (length (pending (toast_timers w))) w Hnow). lia. }
    clear. induction n as [|n IH]; intros w Hw; [done|].
    cbn [run_timers]. unfold next_due.
    destruct (earliest _) as [tm|] eqn:He; [|done].
    apply earliest_elem, list_elem_of_filter in He as [Hdue _].
    apply IH. cbn. lia. }
  assert (pending (toast_timers w1)
          = pending (toast_timers (toast_advance t w))
            ++ [{| timer_id := next_id (toast_timers (toast_advance t w));
                   timer_due := t + toast_delay;
                   timer_callback := hide_toast |}]) as Hp.
  { unfold w1, showToast_at, showToast. cbn -[toast_advance].
    by rewrite Hclock. }
  destruct (toast_advance_visible w1 T) as (Hvis & _ & _).
  assert (toast_visible (toast_advance T w1)
          = bool_decide (T < t + 3000)
            && bool_decide (Forall (λ tm, T < timer_due tm)
                             (pending (toast_timers (toast_advance t w)))))
    as Hres.
  { rewrite Hvis, Hv, Hp. cbn [andb]. rewrite andb_comm.
    rewrite <- bool_decide_and. apply bool_decide_ext.
    rewrite Forall_app, Forall_singleton. cbn. unfold toast_delay. tauto. }
  split_and!; [done|done|].
  intros Hlate. rewrite Hres. by rewrite bool_decide_false by lia.
Qed.

Lemma showToast_after_any_history_witness :
  let w := showToast_at 0 (quiet_toast [js "toast"] 0) in
  toast_now w ≤ 2000 ∧ 2000 ≤ 3000 ∧
  toast_visible (toast_advance 3000 (showToast_at 2000 w))
  = bool_decide (3000 < 2000 + 3000)
    && bool_decide (Forall (λ tm, 3000 < timer_due tm)
                           (pending (toast_timers (toast_advance 2000 w)))).
Proof.
  intros w.
  assert (toast_now w ≤ 2000) as H1 by (simpl; lia).
  assert (2000 ≤ 3000) as H2 by lia.
  split_and!; [exact H1|exact H2|].
  exact (proj1 (proj2 (showToast_after_any_history w 2000 3000 H1 H2))).
Defined.

(** ** Copies, and clicks on cards *)

Lemma fallback_copy_fresh_node env textArea doc :
  fresh_node (snd (fallback_copy env textArea doc)) = fresh_node doc.
Proof.
  unfold fallback_copy. destruct (execCommand env (js "copy") doc); reflexivity.
Qed.

Lemma copyToClipboard_document env text doc :
  fresh_ids doc →
  body (snd (copyToClipboard env text doc)) = body doc ∧
  fresh_ids (snd (copyToClipboard env text doc)) ∧
  (∃ b : bool, fst (copyToClipboard env text doc) = Ok b) ∧
  (clipboard_succeeds env text = true →
   copyToClipboard env text doc = (Ok true, doc)).
Proof.
  intros Hfresh. unfold copyToClipboard, clipboard_succeeds.
  assert (∀ d, fresh_ids d →
            body (snd (let '(textArea, doc) := fallback_setup text d in
                       fallback_copy env textArea doc)) = body d ∧
            fresh_ids (snd (let '(textArea, doc) := fallback_setup text d in
                            fallback_copy env textArea doc)) ∧
            ∃ b : bool, fst (let '(textArea, doc) := fallback_setup text d in
                             fallback_copy env textArea doc) = Ok b) as Hfb.
  { intros d Hd.
    destruct (fallback_spec env text d Hd) as (during & Hdur & Hres & Hbody).
    split_and!; [done| |rewrite Hres; eauto].
    unfold fresh_ids. rewrite Hbody.
    assert (fresh_node (snd (let '(textArea, doc) := fallback_setup text d in
                             fallback_copy env textArea doc))
            = S (fresh_node d)) as ->.
    { unfold fallback_setup. cbv zeta beta iota.
      by rewrite fallback_copy_fresh_node. }
    eapply Forall_impl; [exact Hd|]. intros n Hn. simpl in *. lia. }
  destruct (navigator_clipboard env && isSecureContext env) eqn:Hapi;
    [destruct (writeText env text) as [err|] eqn:Hw|]; cbn [andb].
  - rewrite bool_decide_false by done.
    destruct (Hfb (log (console_warn
               (js "Clipboard API failed, falling back to execCommand") err) doc)
               Hfresh) as (H1 & H2 & H3).
    split_and!; [exact H1|exact H2|exact H3|done].
  - split_and!; [done|done|by exists true|done].
  - destruct (Hfb doc Hfresh) as (H1 & H2 & H3).
    split_and!; [exact H1|exact H2|exact H3|done].
Qed.

(** X18: copies do not pile up in the page.  After any number of calls of
    [copyToClipboard], whichever way each of them went, the body has the
    children it had before, and node identities are still fresh for the
    next call. *)
Theorem copy_all_leaves_body (env : Browser) (texts : list jsstring)
    (doc : Document) :
  fresh_ids doc →
  body (copy_all env texts doc) = body doc ∧
  fresh_ids (copy_all env texts doc).
Proof.
  revert doc. induction texts as [|text texts IH]; intros doc Hfresh; [done|].
  change (copy_all env (text :: texts) doc)
    with (copy_all env texts (snd (copyToClipboard env text doc))).
  destruct (copyToClipboard_document env text doc Hfresh) as (Hb & Hf & _).
  destruct (IH _ Hf) as [Hb' Hf']. split; [|done]. by rewrite Hb', Hb.
Qed.

Lemma copy_all_leaves_body_witness :
  fresh_ids sample_document ∧
  body (copy_all old_browser [js "Neon"; js "Retro"] sample_document)
  = body sample_document.
Proof.
  assert (fresh_ids sample_document) as H.
  { unfold fresh_ids, sample_document. simpl. repeat constructor. }
  split; [exact H|].
  exact (proj1 (copy_all_leaves_body old_browser [js "Neon"; js "Retro"]
                  sample_document H)).
Defined.

(** X19: a click on a card whose copy fails changes nothing one can see:
    no card is marked, the toast is not shown, no timer is set, and the
    body is as before. *)
Theorem card_click_failed (env : Browser) (i : nat) (p : Page) (card : Card) :
  fresh_ids (page_document p) →
  grid (page_state p) !! i = Some card →
  fst (copyToClipboard env (name (card_font card)) (page_document p))
  = Ok false →
  let p' := card_click env i p in
  page_state p' = page_state p ∧
  page_toast p' = page_toast p ∧
  card_timers p' = card_timers p ∧
  body (page_document p') = body (page_document p).
Proof.
  intros Hfresh Hi Hcopy p'. unfold p', card_click. rewrite Hi.
  destruct (copyToClipboard_document env (name (card_font card))
              (page_document p) Hfresh) as (Hbody & _).
  destruct (copyToClipboard env (name (card_font card)) (page_document p))
    as [success doc]. simpl in Hcopy, Hbody. subst success. by split_and!.
Qed.

Lemma card_click_failed_witness :
  let p := quiet_page (renderFonts None sample_state) sample_document [] 0 in
  fresh_ids (page_document p) ∧
  grid (page_state p) !! 0
  = Some (make_card [js "Neon"] (js "Ab") retro) ∧
  fst (copyToClipboard old_browser (js "Retro") (page_document p)) = Ok false ∧
  page_toast (card_click old_browser 0 p) = page_toast p.
Proof.
  intros p.
  assert (fresh_ids (page_document p)) as H1.
  { unfold fresh_ids. simpl. repeat constructor. }
  assert (grid (page_state p) !! 0
          = Some (make_card [js "Neon"] (js "Ab") retro)) as H2
    by (vm_compute; reflexivity).
  assert (fst (copyToClipboard old_browser
                 (name (card_font (make_card [js "Neon"] (js "Ab") retro)))
                 (page_document p)) = Ok false) as H3 by reflexivity.
  split_and!; [exact H1|exact H2|exact H3|].
  exact (proj1 (proj2 (card_click_failed old_browser 0 p _ H1 H2 H3))).
Defined.

Lemma copied_add_copied card : copied (add_copied card) = true.
Proof.
  unfold copied, add_copied, classList_add. simpl.
  apply bool_decide_eq_true. case_bool_decide; [done|].
  apply elem_of_app. right. by left.
Qed.

Lemma copied_drop_copied card : copied (drop_copied card) = false.
Proof.
  unfold copied, drop_copied. simpl. apply bool_decide_eq_false.
  rewrite classList_remove_elem. tauto.
Qed.

Ltac page_step :=
  repeat first
    [ progress unfold next_due, take, clearTimeout
    | progress cbn [run_timers earliest setTimeout
                    pending next_id timer_due timer_id timer_callback
                    page_state page_document page_toast card_timers
                    page_set_grid page_set_document page_set_toast
                    page_set_card_timers page_now page_set_now
                    run_card_callback quiet_page
                    toast_timers toast_set_timers toast_now toast_set_now
                    toast_classList run_toast_callback length no_timers
                    quiet_toast grid set_grid fst snd]
    | rewrite filter_cons
    | rewrite filter_nil
    | rewrite decide_True by (cbn [timer_due timer_id]; lia)
    | rewrite decide_False by (cbn [timer_due timer_id]; lia) ].

(** X20: a click on a card whose copy succeeds, on a page at rest: the card
    is marked ["copied"] for 600 ms and the toast is shown for 3000 ms; no
    other card changes, and the body is as it was. *)
Theorem card_click_copied (env : Browser) (st : State) (doc : Document)
    (classes : list jsstring) (t0 t T : nat) (i : nat) (card : Card) :
  t0 ≤ t → t ≤ T →
  fresh_ids doc →
  grid st !! i = Some card →
  fst (copyToClipboard env (name (card_font card)) doc) = Ok true →
  let p := page_advance T
             (card_click_at env t i (quiet_page st doc classes t0)) in
  copied <$> grid (page_state p) !! i = Some (bool_decide (T < t + 600)) ∧
  (∀ j, j ≠ i → grid (page_state p) !! j = grid st !! j) ∧
  toast_visible (page_toast p) = bool_decide (T < t + 3000) ∧
  body (page_document p) = body doc.
Proof.
  intros Ht0 HtT Hfresh Hi Hcopy.
  change 600 with copied_delay. change 3000 with toast_delay. intros p.
  destruct (copyToClipboard_document env (name (card_font card)) doc Hfresh)
    as (Hbody & _).
  assert (card_click_at env t i (quiet_page st doc classes t0)
          = {| page_state := set_grid (alter add_copied i (grid st)) st;
               page_document :=
                 snd (copyToClipboard env (name (card_font card)) doc);
               page_toast :=
                 {| toast_classList :=
                      classList_add (js "show")
                        (classList_remove (js "show") classes);
                    toast_timers :=
                      {| next_id := 2;
                         pending := [{| timer_id := 1;
                                        timer_due := t + toast_delay;
                                        timer_callback := hide_toast |}] |};
                    toast_now := t |};
               card_timers :=
                 {| next_id := 2;
                    pending := [{| timer_id := 1; timer_due := t + copied_delay;
                                   timer_callback := remove_copied i |}] |} |})
    as Hclick.
  { unfold card_click_at, card_click, page_advance, advance, toast_advance,
      advance. page_step. rewrite Hi.
    destruct (copyToClipboard env (name (card_font card)) doc)
      as [success doc'].
    simpl in Hcopy. subst success. unfold showToast. page_step.
    by rewrite !Nat.max_r by lia. }
  unfold p. rewrite Hclick. clear p Hclick.
  unfold page_advance, advance, toast_advance, advance, toast_visible.
  assert (copied_delay < toast_delay) as Hdelays
    by (unfold copied_delay, toast_delay; lia).
  destruct (decide (T < t + copied_delay)) as [H600|H600].
  - page_step. rewrite (bool_decide_true (T < t + copied_delay)) by lia.
    rewrite (bool_decide_true (T < t + toast_delay)) by lia. split_and!.
    + rewrite list_lookup_alter_eq, Hi. simpl. by rewrite copied_add_copied.
    + intros j Hj. by rewrite list_lookup_alter_ne.
    + apply bool_decide_eq_true, show_in_classList_add.
    + done.
  - rewrite (bool_decide_false (T < t + copied_delay)) by done. page_step.
    assert (∀ (l : list Card) c, l !! i = Some c →
              copied <$> alter drop_copied i (alter add_copied i l) !! i
              = Some false) as Hdrop.
    { intros l c Hl. rewrite !list_lookup_alter_eq, Hl. simpl.
      by rewrite copied_drop_copied. }
    destruct (decide (T < t + toast_delay)) as [H3000|H3000].
    + page_step. rewrite (bool_decide_true (T < t + toast_delay)) by lia.
      split_and!.
      * by apply (Hdrop _ card).
      * intros j Hj. by rewrite !list_lookup_alter_ne.
      * apply bool_decide_eq_true, show_in_classList_add.
      * done.
    + page_step. rewrite (bool_decide_false (T < t + toast_delay)) by lia.
      split_and!.
      * by apply (Hdrop _ card).
      * intros j Hj. by rewrite !list_lookup_alter_ne.
      * apply bool_decide_eq_false, show_not_in_classList_remove.
      * done.
Qed.

Lemma card_click_copied_witness :
  let st := renderFonts None sample_state in
  0 ≤ 100 ∧ 100 ≤ 1000 ∧ fresh_ids sample_document ∧
  grid st !! 1 = Some (make_card [js "Neon"] (js "Ab") neon) ∧
  fst (copyToClipboard modern_browser (js "Neon") sample_document) = Ok true ∧
  toast_visible
    (page_toast
       (page_advance 1000
          (card_click_at modern_browser 100 1
             (quiet_page st sample_document [] 0))))
  = bool_decide (1000 < 100 + 3000).
Proof.
  intros st.
  assert (0 ≤ 100) as H1 by lia.
  assert (100 ≤ 1000) as H2 by lia.
  assert (fresh_ids sample_document) as H3.
  { unfold fresh_ids, sample_document. simpl. repeat constructor. }
  assert (grid st !! 1 = Some (make_card [js "Neon"] (js "Ab") neon)) as H4
    by (vm_compute; reflexivity).
  assert (fst (copyToClipboard modern_browser
                 (name (card_font (make_card [js "Neon"] (js "Ab") neon)))
                 sample_document) = Ok true) as H5 by reflexivity.
  split_and!; [exact H1|exact H2|exact H3|exact H4|exact H5|].
  exact (proj1 (proj2 (proj2
    (card_click_copied modern_browser st sample_document [] 0 100 1000 1 _
       H1 H2 H3 H4 H5)))).
Defined.
